(** * DM_halo_models: the statistics cells of the fit and check notebooks

    The repository's visible code is a set of Jupyter notebooks
    (fits_CDM_all, fits_Einasto, checks_DC14_NFW, checks_CDM_all,
    checks_Einasto_NFW).  They build dictionaries of fit results by calling
    [results.<...>.fit()] and then print population statistics with NumPy:
    the fraction of galaxies per dBIC interval, and the nan-median and
    nan-mean of the reduced chi-square.

    Values are NumPy float64 numbers.  They are embedded as [spec_float]
    (the IEEE 754 specification of the Standard Library) at precision 53 and
    maximal exponent 1024, so that NaN, the infinities, signed zeros and
    rounding are those of the notebook.  Python dictionaries with string keys
    are [gmap string _]; NumPy one-dimensional arrays are lists; Python
    exceptions are the [Raise] results of a small error monad.

    The fitting module (pyfiles/fitting/results.py) and the constants module
    are not among the sources.  What the development needs of them — the
    derived statistics of a fit and the batch loop — is modelled from the
    specification, in the modules [Fitter] and [Batch]; the fitter's
    formulas are stated over the real numbers.  A call of [fit()] in a
    notebook is a parameter: the table it returns, whatever it is. *)

From Stdlib Require Import ZArith Lia List Bool QArith Reals Permutation.
From Stdlib Require Import Floats.SpecFloat.
From stdpp Require Import base gmap strings list sorting.

(** ** float64 *)

Module Float64.

Definition prec : Z := 53.
Definition emax : Z := 1024.

Abbreviation float64 := spec_float.

(** [np.nan], [np.inf], [-np.inf], [0.0] *)
Definition nan : float64 := S754_nan.
Definition inf : float64 := S754_infinity false.
Definition ninf : float64 := S754_infinity true.
Definition zero : float64 := S754_zero false.

(** [float(z)] for a Python int [z] *)
Definition of_Z (z : Z) : float64 := binary_normalize prec emax z 0 false.

Definition add : float64 → float64 → float64 := SFadd prec emax.
Definition sub : float64 → float64 → float64 := SFsub prec emax.
Definition div : float64 → float64 → float64 := SFdiv prec emax.
Definition neg : float64 → float64 := SFopp.

(** [x < y], [x <= y], [x == y]: false as soon as one side is NaN *)
Definition ltb : float64 → float64 → bool := SFltb.
Definition leb : float64 → float64 → bool := SFleb.
Definition eqb : float64 → float64 → bool := SFeqb.

(** [np.isnan], [np.isfinite] *)
Definition isnan (x : float64) : bool :=
  match x with S754_nan => true | _ => false end.

Definition isfinite (x : float64) : bool :=
  match x with S754_zero _ | S754_finite _ _ _ => true | _ => false end.

(** Sign bit clear: +0.0, a positive number or +inf (NaN has no sign here).
    A chi-square, a sum of squares, is of this kind whenever it is a
    number. *)
Definition signbit (x : float64) : bool :=
  match x with
  | S754_zero s | S754_infinity s | S754_finite s _ _ => s
  | S754_nan => false
  end.

(** The real value of a finite float, as a rational: [± m · 2^e]. *)
Definition to_Q (x : float64) : Q :=
  match x with
  | S754_finite s m e =>
      let v := match e with
               | Z0 => inject_Z (Zpos m)
               | Zpos p => inject_Z (Zpos m * 2 ^ Zpos p)
               | Zneg p => Zpos m # (2 ^ p)
               end in
      if s then Qopp v else v
  | _ => 0%Q
  end.

(** A key that orders the numbers as [SFcompare] does: by sign class, then
    exponent, then mantissa (both reversed for negative numbers). *)
Definition rank (x : float64) : Z * Z * Z :=
  match x with
  | S754_infinity true => (-2, 0, 0)
  | S754_finite true m e => (-1, - e, Zneg m)
  | S754_zero _ => (0, 0, 0)
  | S754_finite false m e => (1, e, Zpos m)
  | S754_infinity false => (2, 0, 0)
  | S754_nan => (3, 0, 0)
  end%Z.

Definition lex3 (a b : Z * Z * Z) : comparison :=
  match (a.1.1 ?= b.1.1)%Z with
  | Eq => match (a.1.2 ?= b.1.2)%Z with
          | Eq => (a.2 ?= b.2)%Z
          | c => c
          end
  | c => c
  end.

(** [signed s x]: [x] is a number (not NaN) whose sign bit is [s]. *)
Definition signed (s : bool) (x : float64) : Prop :=
  match x with
  | S754_zero s' | S754_infinity s' | S754_finite s' _ _ => s' = s
  | S754_nan => False
  end.

(** Equal, or two zeros that differ in sign only. *)
Definition same_number (x y : float64) : Prop :=
  x = y ∨ ∃ s s', x = S754_zero s ∧ y = S754_zero s'.

End Float64.

Import Float64.

(** ** Python results and exceptions *)

Inductive exn : Type :=
| KeyError (key : string)
| IndexError
| ZeroDivisionError.

Inductive py (A : Type) : Type :=
| Ok (a : A)
| Raise (e : exn).
Arguments Ok {A} a.
Arguments Raise {A} e.

#[export] Instance py_ret : MRet py := λ A, @Ok A.
#[export] Instance py_bind : MBind py := λ A B f m,
  match m with
  | Ok a => f a
  | Raise e => Raise e
  end.

(** [d[key]] on a dict *)
Definition getitem {V : Type} (d : gmap string V) (key : string) : py V :=
  match d !! key with
  | Some v => Ok v
  | None => Raise (KeyError key)
  end.

(** [a[j]] on a one-dimensional array, for an index [j >= 0] *)
Definition index (a : list float64) (j : nat) : py float64 :=
  match a !! j with
  | Some x => Ok x
  | None => Raise IndexError
  end.

(** [p / q] on two Python ints: the quotient is kept as the pair of ints it
    was computed from; its exact value is [fraction], the float that is
    printed is [printed]. *)
Record ratio : Type := { numer : nat; denom : nat }.

Definition truediv (p q : nat) : py ratio :=
  if Nat.eqb q 0 then Raise ZeroDivisionError
  else Ok {| numer := p; denom := q |}.

Definition fraction (r : ratio) : Q :=
  Z.of_nat (numer r) # Pos.of_nat (denom r).

Definition printed (r : ratio) : float64 :=
  div (of_Z (Z.of_nat (numer r))) (of_Z (Z.of_nat (denom r))).

(** ** NumPy *)

Module np.

(** [np.concatenate((a, b))] *)
Definition concatenate (a b : list float64) : list float64 := a ++ b.

(** [np.ma.masked_invalid(x)] on a scalar: NaN and the infinities are
    masked ([None]); a finite value is kept. *)
Definition masked_invalid (x : float64) : option float64 :=
  if isfinite x then Some x else None.

(** [lo < d <= hi] for a masked scalar [d]: each comparison with a masked
    value gives [np.ma.masked], which is falsy, so the chained comparison
    is false on a masked value. *)
Definition between (lo hi : float64) (d : option float64) : bool :=
  match d with
  | Some x => ltb lo x && leb x hi
  | None => false
  end.

(** [PW_BLOCKSIZE] of NumPy's [pairwise_sum] *)
Definition PW_BLOCKSIZE : nat := 128.

(** The unrolled loop of [pairwise_sum],
    [for (i = 8; i < n - (n % 8); i += 8) { r[0] += a[i+0]; ...; r[7] += a[i+7]; }]:
    [blocks] further blocks of eight entries are added to the eight
    accumulators [r]; what is left of the array is returned with them. *)
Fixpoint accumulate (blocks : nat) (r a : list float64)
  : list float64 * list float64 :=
  match blocks with
  | 0 => (r, a)
  | S blocks' => accumulate blocks' (zip_with add r (take 8 a)) (drop 8 a)
  end.

(** [((r[0] + r[1]) + (r[2] + r[3])) + ((r[4] + r[5]) + (r[6] + r[7]))] *)
Definition combine8 (r : list float64) : float64 :=
  let r_ (k : nat) := default zero (r !! k) in
  add (add (add (r_ 0) (r_ 1)) (add (r_ 2) (r_ 3)))
      (add (add (r_ 4) (r_ 5)) (add (r_ 6) (r_ 7))).

(** The branch [n <= PW_BLOCKSIZE] of [pairwise_sum], for [8 <= n]: the
    accumulators start as the first eight entries, take the further full
    blocks, are combined, and the [n % 8] entries left are added one by
    one. *)
Definition block_sum (a : list float64) : float64 :=
  let '(r, rest) := accumulate (length a / 8 - 1) (take 8 a) (drop 8 a) in
  foldl add (combine8 r) rest.

(** NumPy's [pairwise_sum(a, n)], the inner loop of [np.add.reduce] on a
    contiguous float64 array: fewer than eight entries are added from left
    to right, up to [PW_BLOCKSIZE] entries with eight accumulators, and a
    longer array is split at [n2 = n/2 - (n/2) % 8] and the sums of the two
    parts are added.  [depth] bounds the nesting of the splits; the length
    of the array is always enough. *)
Fixpoint pairwise_sum (depth : nat) (a : list float64) : float64 :=
  let n := length a in
  if n <? 8 then foldl add zero a
  else if n <=? PW_BLOCKSIZE then block_sum a
  else match depth with
       | 0 => block_sum a
       | S depth' =>
           let n2 := n / 2 - (n / 2) mod 8 in
           add (pairwise_sum depth' (take n2 a)) (pairwise_sum depth' (drop n2 a))
       end.

(** [np.sum(a)] of a float64 array: [np.add.reduce] adds the pairwise sum
    of the array to the identity 0.0. *)
Definition sum (a : list float64) : float64 :=
  add zero (pairwise_sum (length a) a).

(** [np.mean(a)]: the sum divided by the number of elements *)
Definition mean (a : list float64) : float64 :=
  div (sum a) (of_Z (Z.of_nat (length a))).

(** [np.sort(a)] on an array without NaN *)
Fixpoint insert_sorted (x : float64) (l : list float64) : list float64 :=
  match l with
  | [] => [x]
  | y :: l' => if leb x y then x :: l else y :: insert_sorted x l'
  end.

Definition sort (a : list float64) : list float64 :=
  foldr insert_sorted [] a.

(** [np.median(a)] on a non-empty array without NaN: the mean of the
    middle element, or of the two middle elements, of the sorted array. *)
Definition median (a : list float64) : float64 :=
  let part := sort a in
  let sz := length a in
  if Nat.even sz
  then mean [default nan (part !! (sz / 2 - 1)); default nan (part !! (sz / 2))]
  else mean [default nan (part !! ((sz - 1) / 2))].

(** [_replace_nan(a, 0)]: the array with 0.0 in place of NaN, and the mask
    of the replaced positions *)
Definition replace_nan (a : list float64) : list float64 * list bool :=
  (map (λ x, if isnan x then zero else x) a, map isnan a).

(** [np.nanmean(a)]: the sum of the array with NaN replaced by 0.0,
    divided by the number of entries that are not NaN.  With no valid
    entry this is 0.0/0.0 = NaN (and a warning), not an exception. *)
Definition nanmean (a : list float64) : float64 :=
  let '(arr, mask) := replace_nan a in
  let cnt := length (List.filter negb mask) in
  let tot := sum arr in
  div tot (of_Z (Z.of_nat cnt)).

(** [np.nanmedian(a)] on a one-dimensional array: NaN entries are removed,
    then [np.median]; NaN when nothing is left. *)
Definition nanmedian (a : list float64) : float64 :=
  let arr1d_parsed := List.filter (λ x, negb (isnan x)) a in
  if Nat.eqb (length arr1d_parsed) 0 then nan else median arr1d_parsed.

End np.

(** ** Result tables

    What a check notebook gets from [res.fit()]: a dict keyed by the bulge
    subset (['Vbulge_none'], ['Vbulge']), then by statistic name (['BIC'],
    ['Chi_sq'], ...), holding one float64 per galaxy of the subset. *)

Abbreviation ResultTable := (gmap string (gmap string (list float64))).

(** [np.concatenate((D[key]['Vbulge_none'][stat], D[key]['Vbulge'][stat]))] *)
Definition concat_subsets (D : gmap string ResultTable) (key stat : string)
  : py (list float64) :=
  t0 ← getitem D key;
  s0 ← getitem t0 "Vbulge_none";
  a ← getitem s0 stat;
  t1 ← getitem D key;
  s1 ← getitem t1 "Vbulge";
  b ← getitem s1 stat;
  mret (np.concatenate a b).

(** ** checks_DC14_NFW.ipynb *)

Module checks_DC14_NFW.

(** [CDM_params_dict={'DC14':{},'NFW':{}}]: the keys of the dictionary
    once the define cell has run, in the order in which every
    [for key in CDM_params_dict] loop of the notebook walks them.  The
    cells below are the notebook's cells on that dictionary; a dictionary
    with other keys is not one the notebook builds. *)
Definition model_keys : list string := ["DC14"; "NFW"].

(** [interv_tab=np.asarray([[-np.inf,-6],[-6,-2],[-2,2],[2,6],[6,np.inf]])] *)
Definition interv_tab : list (float64 * float64) :=
  [ (ninf, of_Z (-6)); (of_Z (-6), of_Z (-2)); (of_Z (-2), of_Z 2);
    (of_Z 2, of_Z 6); (of_Z 6, inf) ].

(** [BIC={'DC14':{},'NFW':{}}]; the placeholders are overwritten by the
    first loop before anything reads them. *)
Definition BIC_init : gmap string (list float64) :=
  {[ "DC14" := []; "NFW" := [] ]}.

(** [for key in CDM_params_dict: BIC[key]=np.concatenate((...))] *)
Fixpoint collect_loop (CDM_params_dict : gmap string ResultTable)
    (keys : list string) (BIC : gmap string (list float64))
  : py (gmap string (list float64)) :=
  match keys with
  | [] => Ok BIC
  | key :: keys' =>
      a ← concat_subsets CDM_params_dict key "BIC";
      collect_loop CDM_params_dict keys' (<[key := a]> BIC)
  end.

(** The body of [for j in range(len(BIC['NFW']))], over the indices [js]
    still to visit, with the running [sum_0]. *)
Fixpoint count_loop (lo hi : float64) (BIC : gmap string (list float64))
    (js : list nat) (sum_0 : nat) : py nat :=
  match js with
  | [] => Ok sum_0
  | j :: js' =>
      nfw ← getitem BIC "NFW";
      x ← index nfw j;
      dc14 ← getitem BIC "DC14";
      y ← index dc14 j;
      let diffin := sub x y in
      let diffin := np.masked_invalid diffin in
      count_loop lo hi BIC js'
        (if np.between lo hi diffin then S sum_0 else sum_0)
  end.

(** One turn of [for i in range(len(interv_tab))]: the interval and the
    printed [sum_0/len(BIC['NFW'])]. *)
Definition interval_row (BIC : gmap string (list float64))
    (iv : float64 * float64) : py (float64 * float64 * ratio) :=
  nfw ← getitem BIC "NFW";
  sum_0 ← count_loop iv.1 iv.2 BIC (seq 0 (length nfw)) 0;
  nfw' ← getitem BIC "NFW";
  r ← truediv sum_0 (length nfw');
  mret (iv.1, iv.2, r).

(** The cell "Print fraction of galaxies that fall within a given range
    for dBIC": the header line and one row per interval. *)
Definition dBIC_cell (CDM_params_dict : gmap string ResultTable)
  : py (string * list (float64 * float64 * ratio)) :=
  BIC ← collect_loop CDM_params_dict model_keys BIC_init;
  rows ← mapM (interval_row BIC) interv_tab;
  mret ("dBIC = BIC_NFW - BIC_DC14", rows).

(** The cell "Print median for chi^2_nu" *)
Definition redchi_cell (CDM_params_dict : gmap string ResultTable)
  : py (list (string * float64)) :=
  mapM (λ key,
          redchi ← concat_subsets CDM_params_dict key "Chi_sq";
          mret (key, np.nanmedian redchi))
       model_keys.

End checks_DC14_NFW.

(** ** checks_Einasto_NFW.ipynb *)

Module checks_Einasto_NFW.

(** [CDM_params_dict={'Einasto':{},'NFW':{}}]: the keys of the dictionary
    once the define cell has run, in the order in which
    [for key in CDM_params_dict] walks them. *)
Definition model_keys : list string := ["Einasto"; "NFW"].

(** The cell "Print median and mode of chi^2_nu": for each key the
    nan-median and the nan-mean of the concatenated ['Chi_sq'] arrays. *)
Definition chisq_cell (CDM_params_dict : gmap string ResultTable)
  : py (list (string * float64 * float64)) :=
  mapM (λ key,
          chisq ← concat_subsets CDM_params_dict key "Chi_sq";
          mret (key, np.nanmedian chisq, np.nanmean chisq))
       model_keys.

End checks_Einasto_NFW.

(** ** fits_CDM_all.ipynb: the loop that fills [CDM_params_dict] *)

Module fits_CDM_all.

Definition prior_tab : list string :=
  ["uni_priors"; "c200_priors_check"; "v200_priors_check";
   "MLd_priors_check"; "MLb_priors_check"].

Definition model_tab : list string := ["Burkert"; "DC14"; "Einasto"; "NFW"].

Abbreviation params_dict := (gmap string (gmap string ResultTable)).

(** [results.results_CDM_all(model, fit_dict_in=constants.fitting_dict(
    fit_routine=prior)).fit()] lives in pyfiles/fitting/results.py, which is
    not among the sources.  A call is described by the tables it may
    return, [fit_outcome model prior res]. *)
Section Orchestration.
Variable fit_outcome : string → string → ResultTable → Prop.

(** [for j in range(len(model_tab))], started on the models still to
    fit; [calls] is the log of the [(prior, model)] pairs fitted so far. *)
Inductive inner_loop (prior : string)
  : list string → params_dict * list (string * string)
    → params_dict * list (string * string) → Prop :=
| inner_done st : inner_loop prior [] st st
| inner_step model models d calls row res st' :
    fit_outcome model prior res →
    d !! prior = Some row →
    inner_loop prior models
      (<[prior := <[model := res]> row]> d, calls ++ [(prior, model)]) st' →
    inner_loop prior (model :: models) (d, calls) st'.

(** [for i in range(len(prior_tab))] *)
Inductive outer_loop
  : list string → params_dict * list (string * string)
    → params_dict * list (string * string) → Prop :=
| outer_done st : outer_loop [] st st
| outer_step prior priors d calls st1 st' :
    inner_loop prior model_tab (<[prior := ∅]> d, calls) st1 →
    outer_loop priors st1 st' →
    outer_loop (prior :: priors) (d, calls) st'.

(** One run of the cell, from [CDM_params_dict={}] *)
Definition run (CDM_params_dict : params_dict) (calls : list (string * string)) : Prop :=
  outer_loop prior_tab (∅, []) (CDM_params_dict, calls).

End Orchestration.

(** The dictionary a run builds when each call returns [fit model prior]. *)
Definition table_of (fit : string → string → ResultTable) : params_dict :=
  foldl (λ d prior,
           <[prior := foldl (λ row model, <[model := fit model prior]> row) ∅ model_tab]> d)
        ∅ prior_tab.

End fits_CDM_all.

(** ** The fitter and the batch loop behind [fit()] *)

Module Fitter.

Local Open Scope R_scope.

(** A derived statistic of the fitter: a real number or NaN. *)
Inductive stat : Type := NaN | Num (r : R).



(** Modelled from the spec: the Per-Galaxy Fitter is not among the sources;
    "BIC = chi^2 + k·ln(N) where k = number of free parameters, N = number
    of data points". *)
Definition BIC (chi2 : R) (k N : nat) : R := chi2 + INR k * ln (INR N).





End Fitter.

Module Batch.

(** Modelled from the spec: the Per-Galaxy Fitter is not among the sources;
    one galaxy's fit hands the batch loop the float64 statistics of a
    converged fit, or a failure. *)
Inductive outcome : Type :=
| Converged (Chi_sq BIC : float64)
| Failed.

(** Modelled from the spec: the Batch Fit Orchestrator is inside [fit()],
    which is not among the sources; "a single galaxy's fit failure does
    not abort the batch; it is recorded as a missing/NaN entry and the
    batch continues". *)
Definition entry (o : outcome) : float64 * float64 :=
  match o with
  | Converged c b => (c, b)
  | Failed => (nan, nan)
  end.

(** Modelled from the spec: the Batch Fit Orchestrator is not among the
    sources; it "iterates the Per-Galaxy Fitter over the full galaxy set",
    giving the ['Chi_sq'] and ['BIC'] columns of a subset one entry per
    galaxy, in catalogue order. *)
Definition Chi_sq_column {G : Type} (fitter : G → outcome) (galaxies : list G)
  : list float64 :=
  map (λ g, (entry (fitter g)).1) galaxies.

Definition BIC_column {G : Type} (fitter : G → outcome) (galaxies : list G)
  : list float64 :=
  map (λ g, (entry (fitter g)).2) galaxies.

(** Modelled from the spec: the Batch Fit Orchestrator is not among the
    sources; the table is laid out under the keys the notebooks read
    (['Vbulge_none'] and ['Vbulge'], then ['Chi_sq'] and ['BIC']). *)
Definition subset_table {G : Type} (fitter : G → outcome) (galaxies : list G)
  : gmap string (list float64) :=
  {[ "Chi_sq" := Chi_sq_column fitter galaxies;
     "BIC" := BIC_column fitter galaxies ]}.

Definition fit {G : Type} (fitter : G → outcome) (no_bulge bulge : list G)
  : ResultTable :=
  {[ "Vbulge_none" := subset_table fitter no_bulge;
     "Vbulge" := subset_table fitter bulge ]}.

(** The chi-square values of the galaxies whose fit converged, in order. *)
Fixpoint converged_Chi_sq {G : Type} (fitter : G → outcome) (galaxies : list G)
  : list float64 :=
  match galaxies with
  | [] => []
  | g :: gs =>
      match fitter g with
      | Converged c _ => c :: converged_Chi_sq fitter gs
      | Failed => converged_Chi_sq fitter gs
      end
  end.

(** The median of the valid entries, NaN when there is none *)
Definition median_of_valid (valid : list float64) : float64 :=
  if Nat.eqb (length valid) 0 then nan else np.median valid.

End Batch.

(** ** The aggregator's statistics, in the spec's words *)

Module Aggregator.

(** "ΔBIC(A,B) per galaxy = BIC_A − BIC_B" *)
Definition Delta_BIC (BIC_A BIC_B : list float64) : list float64 :=
  zip_with sub BIC_A BIC_B.

(** Membership of a difference in the interval (lo, hi]: strict lower
    bound, inclusive upper bound, on a valid (finite) value. *)
Definition in_interval (iv : float64 * float64) (d : float64) : bool :=
  np.between iv.1 iv.2 (np.masked_invalid d).

(** Number of galaxies whose difference falls in the interval *)
Definition bin_count (iv : float64 * float64) (ds : list float64) : nat :=
  length (List.filter (in_interval iv) ds).

(** A galaxy is valid for a comparison when neither input is NaN. *)
Definition both_valid (xy : float64 * float64) : bool :=
  negb (isnan xy.1) && negb (isnan xy.2).

(** The two bulge subsets of a table, for one statistic: the arrays under
    ['Vbulge_none'] and ['Vbulge']. *)
Definition subsets (T : ResultTable) (stat : string) (a b : list float64) : Prop :=
  ∃ s0 s1, T !! "Vbulge_none" = Some s0 ∧ s0 !! stat = Some a ∧
           T !! "Vbulge" = Some s1 ∧ s1 !! stat = Some b.

Definition Qsum (l : list Q) : Q := foldr Qplus 0%Q l.

Definition total (l : list nat) : nat := foldr Nat.add 0 l.

(** The row the dBIC cell prints for an interval, from the two
    concatenated BIC arrays *)
Definition row_of (nfw dc14 : list float64) (iv : float64 * float64)
  : float64 * float64 * ratio :=
  (iv.1, iv.2, {| numer := bin_count iv (Delta_BIC nfw dc14); denom := length nfw |}).

(** The chi-squares of a batch with 0.0 in the place of every failed fit,
    in catalogue order. *)
Definition zero_filled {G : Type} (fitter : G → Batch.outcome) (galaxies : list G)
  : list float64 :=
  map (λ g, match fitter g with
            | Batch.Converged c _ => c
            | Batch.Failed => zero
            end) galaxies.

(** A galaxy counts for the interval [iv] of ΔBIC(A,B): both fits
    converged, and BIC_A − BIC_B is a valid value inside the interval. *)
Definition counted {G : Type} (fitter_A fitter_B : G → Batch.outcome)
    (iv : float64 * float64) (g : G) : bool :=
  match fitter_A g, fitter_B g with
  | Batch.Converged _ bic_A, Batch.Converged _ bic_B => in_interval iv (sub bic_A bic_B)
  | _, _ => false
  end.

End Aggregator.

(** ** Concrete result tables *)

Module Examples.

Definition one : float64 := of_Z 1.

(** A table with the ['BIC'] and ['Chi_sq'] columns of the two subsets *)
Definition table (none_BIC bulge_BIC none_Chi_sq bulge_Chi_sq : list float64)
  : ResultTable :=
  {[ "Vbulge_none" := {[ "BIC" := none_BIC; "Chi_sq" := none_Chi_sq ]};
     "Vbulge" := {[ "BIC" := bulge_BIC; "Chi_sq" := bulge_Chi_sq ]} ]}.

(** Three galaxies with finite BIC in both models:
    dBIC = 10 - 1, 3 - 3 and 1 - 9. *)
Definition D_finite : gmap string ResultTable :=
  {[ "DC14" := table [of_Z 1; of_Z 3] [of_Z 9] [] [];
     "NFW" := table [of_Z 10; of_Z 3] [of_Z 1] [] [] ]}.

(** Two galaxies, no NaN: the first has an infinite BIC in both models. *)
Definition D_infinite : gmap string ResultTable :=
  {[ "DC14" := table [inf] [one] [] [];
     "NFW" := table [inf] [one] [] [] ]}.

(** Two galaxies; the NFW fit of the second one failed (NaN). *)
Definition D_nan : gmap string ResultTable :=
  {[ "DC14" := table [one] [one] [] [];
     "NFW" := table [one] [nan] [] [] ]}.

(** No galaxy at all. *)
Definition D_empty : gmap string ResultTable :=
  {[ "DC14" := table [] [] [] [];
     "NFW" := table [] [] [] [] ]}.

(** One galaxy in the NFW table, two in the DC14 table. *)
Definition D_mismatch : gmap string ResultTable :=
  {[ "DC14" := table [one] [of_Z 5] [] [];
     "NFW" := table [one] [] [] [] ]}.

(** The same three galaxies of the bulge-free subset in two orders, with
    reduced chi-squares 1e16, 1 and 1. *)
Definition e16 : float64 := of_Z (10 ^ 16).

Definition D_order_1 : gmap string ResultTable :=
  {[ "Einasto" := table [] [] [e16; one; one] [];
     "NFW" := table [] [] [e16; one; one] [] ]}.

Definition D_order_2 : gmap string ResultTable :=
  {[ "Einasto" := table [] [] [one; one; e16] [];
     "NFW" := table [] [] [one; one; e16] [] ]}.

(** A fitter on galaxies numbered from 0: galaxies 0 and 2 converge with
    chi-squares 1 and 3, every other fit fails. *)
Definition fitter_ex (n : nat) : Batch.outcome :=
  match n with
  | 0 => Batch.Converged (of_Z 1) (of_Z 5)
  | 2 => Batch.Converged (of_Z 3) (of_Z 7)
  | _ => Batch.Failed
  end.

(** A fitter for nine galaxies: galaxy 0 fails, galaxy 1 converges with
    chi-square 1e16, every other one with chi-square 1. *)
Definition fitter_nine (n : nat) : Batch.outcome :=
  match n with
  | 0 => Batch.Failed
  | 1 => Batch.Converged e16 (of_Z 5)
  | _ => Batch.Converged one (of_Z 5)
  end.

End Examples.

(** ** The cells that fill [CDM_params_dict] in the check notebooks *)

Module define_cells.

(** The dict literal [{'DC14':{},'NFW':{}}] (and its like): every key of the
    list bound to an empty dict. *)
Definition placeholders (keys : list string) : gmap string ResultTable :=
  foldr (λ key d, <[key := ∅]> d) ∅ keys.

(** [for key in CDM_params_dict: res=results.results_<...>_check(key,
    fit_dict_in=fit_dict_ex); CDM_params_dict[key]=res.fit()], over the keys
    still to visit.  The fit itself is in pyfiles/fitting/results.py, which
    is not among the sources: [fit key] stands for the table the call
    returns for [key], whatever it is. *)
Fixpoint define_loop (fit : string → ResultTable) (keys : list string)
    (CDM_params_dict : gmap string ResultTable) : gmap string ResultTable :=
  match keys with
  | [] => CDM_params_dict
  | key :: keys' => define_loop fit keys' (<[key := fit key]> CDM_params_dict)
  end.

(** The cell "Define dictionary of fit parameters" of a check notebook whose
    literal has the keys [keys]. *)
Definition define_cell (fit : string → ResultTable) (keys : list string)
  : gmap string ResultTable :=
  define_loop fit keys (placeholders keys).

(** [CDM_params_dict={'Burkert':{},'DC14':{},'Einasto':{},'NFW':{}}] of
    checks_CDM_all *)
Definition checks_CDM_all_keys : list string := ["Burkert"; "DC14"; "Einasto"; "NFW"].

End define_cells.

(** ** What a finished run of the fits_CDM_all loop has built *)

Module Shape.

(** The row of [prior] is filled: it has exactly the keys of [model_tab],
    and each holds a table the fit of that model under [prior] returned. *)
Definition filled (fit_outcome : string → string → ResultTable → Prop)
    (d : gmap string (gmap string ResultTable)) (prior : string) : Prop :=
  ∃ row, d !! prior = Some row ∧
         dom row = list_to_set (C := gset string) fits_CDM_all.model_tab ∧
         ∀ model res, row !! model = Some res → fit_outcome model prior res.

(** Every call of [fit()] returns some table. *)
Definition returns (fit_outcome : string → string → ResultTable → Prop) : Prop :=
  ∀ model prior, ∃ res, fit_outcome model prior res.

(** A dictionary has the ['Chi_sq'] column of both subsets under [key]. *)
Definition has_Chi_sq (D : gmap string ResultTable) (key : string) : Prop :=
  ∃ T a b, D !! key = Some T ∧ Aggregator.subsets T "Chi_sq" a b.

End Shape.

(** ** More concrete tables *)

Module MoreExamples.
Import Examples.

(** The two galaxies of [D_infinite], in the other order. *)
Definition D_infinite_swapped : gmap string ResultTable :=
  {[ "DC14" := table [one] [inf] [] [];
     "NFW" := table [one] [inf] [] [] ]}.

(** Every fit failed: all chi-squares are NaN (the bulge subset is empty). *)
Definition D_all_failed : gmap string ResultTable :=
  {[ "Einasto" := table [] [] [nan; nan] [];
     "NFW" := table [] [] [nan] [] ]}.

(** Chi-squares 4, NaN, 1 and 9. *)
Definition D_chi_sq : gmap string ResultTable :=
  {[ "Einasto" := table [] [] [of_Z 4; nan] [of_Z 1];
     "NFW" := table [] [] [of_Z 9] [] ]}.

(** A fit that returns, for each key, the table a dictionary holds *)
Definition fit_of (D : gmap string ResultTable) (key : string) : ResultTable :=
  default ∅ (D !! key).

End MoreExamples.

Module Float64Facts.

Lemma compare_rank (x y : float64) :
  isnan x = false → isnan y = false →
  SFcompare x y = Some (lex3 (rank x) (rank y)).
Proof.
  destruct x as [sx|sx| |sx mx ex], y as [sy|sy| |sy my ey];
    try discriminate; intros _ _;
    try destruct sx; try destruct sy; try reflexivity.
  cbn. unfold lex3; cbn. rewrite Z.compare_opp, (Z.compare_antisym ex ey).
  destruct (ex ?= ey)%Z; reflexivity.
Qed.

Lemma lex3_antisym a b : lex3 b a = CompOpp (lex3 a b).
Proof.
  unfold lex3.
  rewrite (Z.compare_antisym a.1.1), (Z.compare_antisym a.1.2), (Z.compare_antisym a.2).
  destruct (a.1.1 ?= b.1.1)%Z, (a.1.2 ?= b.1.2)%Z, (a.2 ?= b.2)%Z; reflexivity.
Qed.

Lemma lex3_Gt a b :
  lex3 a b = Gt ↔
  (a.1.1 > b.1.1 ∨ (a.1.1 = b.1.1 ∧ (a.1.2 > b.1.2 ∨ (a.1.2 = b.1.2 ∧ a.2 > b.2))))%Z.
Proof.
  unfold lex3.
  destruct (Z.compare_spec a.1.1 b.1.1), (Z.compare_spec a.1.2 b.1.2),
    (Z.compare_spec a.2 b.2); split; intros; try discriminate; try reflexivity; lia.
Qed.

Lemma lex3_le_trans a b c : lex3 a b ≠ Gt → lex3 b c ≠ Gt → lex3 a c ≠ Gt.
Proof. rewrite !lex3_Gt. lia. Qed.

Lemma leb_rank (x y : float64) :
  isnan x = false → isnan y = false →
  leb x y = true ↔ lex3 (rank x) (rank y) ≠ Gt.
Proof.
  intros Hx Hy. unfold leb, SFleb. rewrite (compare_rank x y Hx Hy).
  destruct (lex3 (rank x) (rank y)); split; intros; congruence.
Qed.

Lemma leb_not_nan (x y : float64) : leb x y = true → isnan x = false ∧ isnan y = false.
Proof. destruct x, y; try discriminate; auto. Qed.

Lemma leb_trans (x y z : float64) : leb x y = true → leb y z = true → leb x z = true.
Proof.
  intros Hxy Hyz.
  destruct (leb_not_nan _ _ Hxy) as [Hx Hy], (leb_not_nan _ _ Hyz) as [_ Hz].
  rewrite leb_rank in * by assumption. eauto using lex3_le_trans.
Qed.

Lemma ltb_negb_leb (c x : float64) :
  isnan c = false → isnan x = false → ltb c x = negb (leb x c).
Proof.
  intros Hc Hx. unfold ltb, leb, SFltb, SFleb.
  rewrite (compare_rank c x Hc Hx), (compare_rank x c Hx Hc), (lex3_antisym (rank x) (rank c)).
  destruct (lex3 (rank x) (rank c)); reflexivity.
Qed.

Lemma eqb_refl (x : float64) : isnan x = false → eqb x x = true.
Proof.
  intros Hx. unfold eqb, SFeqb. rewrite (compare_rank x x Hx Hx).
  unfold lex3. rewrite !Z.compare_refl. reflexivity.
Qed.

End Float64Facts.

Module RoundingFacts.

Lemma iter_pos_invariant {A : Type} (P : A → Prop) (f : A → A) :
  (∀ x, P x → P (f x)) → ∀ n x, P x → P (SpecFloat.iter_pos f n x).
Proof.
  intros Hf. induction n as [n IH|n IH|]; intros x Hx; cbn; auto.
Qed.

Lemma shr_1_nonneg mrs : (0 ≤ shr_m mrs → 0 ≤ shr_m (shr_1 mrs))%Z.
Proof.
  destruct mrs as [m r s]. destruct m as [|[p|p|]|[p|p|]]; cbn; lia.
Qed.

Lemma shr_nonneg mrs e n : (0 ≤ shr_m mrs → 0 ≤ shr_m (shr mrs e n).1)%Z.
Proof.
  intros H. destruct n as [|p|p]; cbn; try assumption.
  apply (iter_pos_invariant (λ r, 0 ≤ shr_m r)%Z); auto using shr_1_nonneg.
Qed.

Lemma shr_fexp_nonneg m e l :
  (0 ≤ m → 0 ≤ shr_m (shr_fexp prec emax m e l).1)%Z.
Proof.
  intros H. unfold shr_fexp. apply shr_nonneg.
  destruct l as [|[]]; exact H.
Qed.

Lemma round_nearest_even_nonneg m l : (0 ≤ m → 0 ≤ round_nearest_even m l)%Z.
Proof.
  intros H. destruct l as [|[]]; cbn; try destruct (Z.even m); lia.
Qed.

Lemma binary_round_aux_signed sx mx ex lx :
  (0 ≤ mx)%Z → signed sx (binary_round_aux prec emax sx mx ex lx).
Proof.
  intros H. unfold binary_round_aux.
  pose proof (shr_fexp_nonneg mx ex lx H) as H1.
  destruct (shr_fexp prec emax mx ex lx) as [mrs' e'].
  pose proof (shr_fexp_nonneg
                (round_nearest_even (shr_m mrs') (loc_of_shr_record mrs')) e' loc_Exact
                (round_nearest_even_nonneg _ _ H1)) as H2.
  destruct (shr_fexp prec emax _ e' loc_Exact) as [mrs'' e''].
  cbn in H2. destruct (shr_m mrs'') as [|m|m]; [reflexivity| |lia].
  destruct (e'' <=? emax - prec)%Z; reflexivity.
Qed.

Lemma binary_round_signed sx mx ex : signed sx (binary_round prec emax sx mx ex).
Proof.
  unfold binary_round. destruct (shl_align mx ex _) as [mz ez].
  apply binary_round_aux_signed. lia.
Qed.

Lemma binary_round_aux_negb sx mx ex lx :
  binary_round_aux prec emax (negb sx) mx ex lx
  = neg (binary_round_aux prec emax sx mx ex lx).
Proof.
  unfold binary_round_aux.
  destruct (shr_fexp prec emax mx ex lx) as [mrs' e'].
  destruct (shr_fexp prec emax _ e' loc_Exact) as [mrs'' e''].
  destruct (shr_m mrs''); [reflexivity| |reflexivity].
  destruct (e'' <=? emax - prec)%Z; reflexivity.
Qed.

Lemma binary_round_negb sx mx ex :
  binary_round prec emax (negb sx) mx ex = neg (binary_round prec emax sx mx ex).
Proof.
  unfold binary_round. destruct (shl_align mx ex _) as [mz ez].
  apply binary_round_aux_negb.
Qed.

Lemma neg_involutive (x : float64) : neg (neg x) = x.
Proof. destruct x; cbn; rewrite ?negb_involutive; reflexivity. Qed.

Lemma binary_normalize_opp z e :
  same_number (binary_normalize prec emax (- z) e false)
              (neg (binary_normalize prec emax z e false)).
Proof.
  destruct z as [|p|p].
  - right. exists false, true. split; reflexivity.
  - left. exact (binary_round_negb false p e).
  - left. change (binary_round prec emax false p e
                  = neg (binary_round prec emax (negb false) p e)).
    rewrite binary_round_negb. symmetry. apply neg_involutive.
Qed.

Lemma binary_normalize_not_nan z e : isnan (binary_normalize prec emax z e false) = false.
Proof.
  destruct z as [|p|p]; cbn; [reflexivity| |].
  - pose proof (binary_round_signed false p e) as H.
    destruct (binary_round _ _ _ _ _); [reflexivity..|destruct H|reflexivity].
  - pose proof (binary_round_signed true p e) as H.
    destruct (binary_round _ _ _ _ _); [reflexivity..|destruct H|reflexivity].
Qed.

(** [a - b] and [-(b - a)] are the same number (they can differ in the sign
    of a zero only). *)
Lemma sub_swap (a b : float64) : same_number (sub a b) (neg (sub b a)).
Proof.
  destruct a as [sa|sa| |sa ma ea], b as [sb|sb| |sb mb eb];
    try (left; reflexivity);
    try (destruct sa, sb;
         solve [left; reflexivity | right; do 2 eexists; split; reflexivity]).
  unfold sub, SFsub. rewrite (Z.min_comm eb ea).
  set (ez := Z.min ea eb).
  set (A := cond_Zopp sa (Z.pos (shl_align ma ea ez).1)).
  set (B := cond_Zopp sb (Z.pos (shl_align mb eb ez).1)).
  replace (A - B)%Z with (- (B - A))%Z by lia.
  apply binary_normalize_opp.
Qed.

Lemma sub_finite_not_nan (a b : float64) :
  isfinite a = true → isfinite b = true → isnan (sub a b) = false.
Proof.
  destruct a as [sa|sa| |sa ma ea], b as [sb|sb| |sb mb eb];
    try discriminate; intros _ _; try reflexivity.
  - destruct sa, sb; reflexivity.
  - apply binary_normalize_not_nan.
Qed.

Lemma add_comm (x y : float64) : add x y = add y x.
Proof.
  destruct x as [sx|sx| |sx mx ex], y as [sy|sy| |sy my ey];
    try reflexivity; try (destruct sx, sy; reflexivity).
  unfold add, SFadd. rewrite (Z.min_comm ey ex), Z.add_comm. reflexivity.
Qed.

Lemma add_zero_r (x : float64) : signbit x = false → add x zero = x.
Proof. destruct x as [[]|[]| |[] m e]; try discriminate; reflexivity. Qed.

Lemma add_signbit (x y : float64) :
  signbit x = false → signbit y = false → signbit (add x y) = false.
Proof.
  destruct x as [[]|[]| |[] mx ex], y as [[]|[]| |[] my ey];
    try discriminate; intros _ _; try reflexivity.
  pose proof (binary_round_signed false
                ((shl_align mx ex (Z.min ex ey)).1 + (shl_align my ey (Z.min ex ey)).1)
                (Z.min ex ey)) as H.
  change (signbit (binary_round prec emax false
                     ((shl_align mx ex (Z.min ex ey)).1 + (shl_align my ey (Z.min ex ey)).1)
                     (Z.min ex ey)) = false).
  destruct (binary_round _ _ _ _ _); cbn in *; congruence.
Qed.

End RoundingFacts.

Module SumFacts.
Import RoundingFacts.

(** A property that 0.0 has and that float64 addition preserves holds of
    every sum, whatever the order of the additions. *)
Section Closed.
Variable P : float64 → Prop.
Hypothesis P_zero : P zero.
Hypothesis P_add : ∀ x y, P x → P y → P (add x y).

Lemma foldl_closed (a : list float64) (acc : float64) :
  P acc → Forall P a → P (foldl add acc a).
Proof.
  intros Hacc Ha. revert acc Hacc.
  induction Ha as [|x a Hx _ IH]; intros acc Hacc; [exact Hacc|].
  cbn [foldl]. apply IH, P_add; assumption.
Qed.

Lemma zip_with_closed (r a : list float64) :
  Forall P r → Forall P a → Forall P (zip_with add r a).
Proof.
  intros Hr. revert a. induction Hr as [|x r Hx _ IH]; intros a Ha; [constructor|].
  destruct Ha as [|y a Hy Ha]; [constructor|].
  cbn [zip_with]. constructor; [apply P_add; assumption|apply IH, Ha].
Qed.

Lemma accumulate_closed (blocks : nat) (r a : list float64) :
  Forall P r → Forall P a →
  Forall P (np.accumulate blocks r a).1 ∧ Forall P (np.accumulate blocks r a).2.
Proof.
  revert r a. induction blocks as [|blocks IH]; intros r a Hr Ha; [split; assumption|].
  cbn [np.accumulate]. apply IH.
  - apply zip_with_closed; [exact Hr|apply Forall_take, Ha].
  - apply Forall_drop, Ha.
Qed.

Lemma combine8_closed (r : list float64) : Forall P r → P (np.combine8 r).
Proof.
  intros Hr.
  assert (∀ k, P (default zero (r !! k))) as Hk.
  { intros k. destruct (r !! k) as [x|] eqn:Hx; [|exact P_zero].
    exact (proj1 (Forall_lookup P r) Hr k x Hx). }
  unfold np.combine8. auto 10.
Qed.

Lemma block_sum_closed (a : list float64) : Forall P a → P (np.block_sum a).
Proof.
  intros Ha. unfold np.block_sum.
  destruct (accumulate_closed (length a / 8 - 1) (take 8 a) (drop 8 a)) as [Hr Hrest].
  - apply Forall_take, Ha.
  - apply Forall_drop, Ha.
  - destruct (np.accumulate _ _ _) as [r rest]. cbn [fst snd] in *.
    apply foldl_closed; [apply combine8_closed, Hr|exact Hrest].
Qed.

Lemma pairwise_sum_closed (depth : nat) (a : list float64) :
  Forall P a → P (np.pairwise_sum depth a).
Proof.
  revert a. induction depth as [|depth IH]; intros a Ha; cbn [np.pairwise_sum];
    destruct (length a <? 8);
    try (apply foldl_closed; [exact P_zero|exact Ha]);
    destruct (length a <=? np.PW_BLOCKSIZE);
    try (apply block_sum_closed, Ha).
  apply P_add; apply IH; [apply Forall_take, Ha|apply Forall_drop, Ha].
Qed.

Lemma sum_closed (a : list float64) : Forall P a → P (np.sum a).
Proof.
  intros Ha. unfold np.sum. apply P_add; [exact P_zero|apply pairwise_sum_closed, Ha].
Qed.
End Closed.

(** The nesting bound of [np.pairwise_sum] never runs out: any bound from
    the length of the array on gives the same sum. *)
Lemma pairwise_sum_enough (depth depth' : nat) (a : list float64) :
  length a ≤ depth → length a ≤ depth' →
  np.pairwise_sum depth a = np.pairwise_sum depth' a.
Proof.
  revert depth' a. induction depth as [|depth IH]; intros depth' a Hd Hd'.
  - destruct a; [|cbn in Hd; lia]. destruct depth'; reflexivity.
  - destruct depth' as [|depth'].
    { destruct a; [reflexivity|cbn in Hd'; lia]. }
    cbn [np.pairwise_sum].
    destruct (length a <? 8) eqn:H8; [reflexivity|].
    destruct (Nat.leb_spec (length a) np.PW_BLOCKSIZE) as [Hle|Hgt]; [reflexivity|].
    unfold np.PW_BLOCKSIZE in Hgt.
    pose proof (Nat.Div0.mod_le (length a / 2) 8) as Hm.
    pose proof (Nat.mod_upper_bound (length a / 2) 8 ltac:(lia)) as Hm'.
    assert (64 ≤ length a / 2) as Hhalf by (apply Nat.div_le_lower_bound; lia).
    assert (length a / 2 < length a) as Hlt by (apply Nat.div_lt; lia).
    f_equal; apply IH; rewrite ?length_take, ?length_drop; lia.
Qed.

(** Fewer than eight entries are added from left to right. *)
Lemma sum_lt8 (a : list float64) :
  length a < 8 → np.sum a = add zero (foldl add zero a).
Proof.
  intros Hlt. unfold np.sum.
  destruct a as [|x a]; [reflexivity|].
  cbn [length np.pairwise_sum].
  apply Nat.ltb_lt in Hlt. cbn [length] in Hlt. rewrite Hlt. reflexivity.
Qed.

End SumFacts.

Module CellFacts.
Import Float64Facts RoundingFacts Aggregator checks_DC14_NFW.

Ltac py_step := cbn [mbind mret py_bind py_ret fst snd].

Lemma index_Some (a : list float64) j x : a !! j = Some x → index a j = Ok x.
Proof. intros H. unfold index. rewrite H. reflexivity. Qed.

Lemma mapM_Ok {A B : Type} (f : A → py B) (g : A → B) (l : list A) :
  (∀ x, x ∈ l → f x = Ok (g x)) → mapM f l = Ok (map g l).
Proof.
  induction l as [|x l IH]; intros H; [reflexivity|].
  cbn. rewrite (H x) by apply list_elem_of_here. cbn.
  rewrite IH by (intros y Hy; apply H, list_elem_of_further, Hy). reflexivity.
Qed.

Lemma mapM_Raise {A B : Type} (f : A → py B) (x : A) (l : list A) (e : exn) :
  f x = Raise e → mapM f (x :: l) = Raise e.
Proof. intros H. cbn. rewrite H. reflexivity. Qed.

Lemma getitem_Some {V : Type} (d : gmap string V) key v :
  d !! key = Some v → getitem d key = Ok v.
Proof. intros H. unfold getitem. rewrite H. reflexivity. Qed.

Lemma concat_subsets_Ok (D : gmap string ResultTable) key stat l :
  concat_subsets D key stat = Ok l ↔
  ∃ T s0 s1 a b,
    D !! key = Some T ∧
    T !! "Vbulge_none" = Some s0 ∧ s0 !! stat = Some a ∧
    T !! "Vbulge" = Some s1 ∧ s1 !! stat = Some b ∧
    l = a ++ b.
Proof.
  unfold concat_subsets, getitem. split.
  - destruct (D !! key) as [T|] eqn:HT; cbn; [|discriminate].
    destruct (T !! "Vbulge_none") as [s0|] eqn:H0; cbn; [|discriminate].
    destruct (s0 !! stat) as [a|] eqn:Ha; cbn; [|discriminate].
    destruct (T !! "Vbulge") as [s1|] eqn:H1; cbn; [|discriminate].
    destruct (s1 !! stat) as [b|] eqn:Hb; cbn; [|discriminate].
    intros [= <-]. exists T, s0, s1, a, b. repeat split; assumption || reflexivity.
  - intros (T & s0 & s1 & a & b & -> & H0 & Ha & H1 & Hb & ->). cbn.
    rewrite H0. cbn. rewrite Ha. cbn. rewrite H1. cbn. rewrite Hb. reflexivity.
Qed.

(** The first loop of the dBIC cell *)
Lemma collect_loop_Ok (D : gmap string ResultTable) dc14 nfw :
  concat_subsets D "DC14" "BIC" = Ok dc14 →
  concat_subsets D "NFW" "BIC" = Ok nfw →
  collect_loop D model_keys BIC_init
  = Ok (<["NFW" := nfw]> (<["DC14" := dc14]> BIC_init)).
Proof. intros H1 H2. cbn. rewrite H1. cbn. rewrite H2. reflexivity. Qed.

Section Loop.
Variables (lo hi : float64) (BIC : gmap string (list float64)).
Variables (nfw dc14 : list float64).
Hypothesis HNFW : BIC !! "NFW" = Some nfw.
Hypothesis HDC14 : BIC !! "DC14" = Some dc14.

Lemma count_loop_step j js sum_0 x y :
  nfw !! j = Some x → dc14 !! j = Some y →
  count_loop lo hi BIC (j :: js) sum_0
  = count_loop lo hi BIC js
      (if in_interval (lo, hi) (sub x y) then S sum_0 else sum_0).
Proof.
  intros Hx Hy. cbn [count_loop].
  rewrite (getitem_Some _ _ _ HNFW). py_step. rewrite (index_Some _ _ _ Hx). py_step.
  rewrite (getitem_Some _ _ _ HDC14). py_step. rewrite (index_Some _ _ _ Hy). py_step.
  reflexivity.
Qed.

Lemma count_loop_from k m sum_0 :
  k + m = length nfw → length nfw ≤ length dc14 →
  count_loop lo hi BIC (seq k m) sum_0
  = Ok (sum_0 + bin_count (lo, hi) (Delta_BIC (drop k nfw) (drop k dc14))).
Proof.
  revert k sum_0. induction m as [|m IH]; intros k sum_0 Hk Hle.
  - cbn [seq count_loop]. rewrite (drop_ge nfw) by lia.
    cbn. f_equal. lia.
  - destruct (lookup_lt_is_Some_2 nfw k) as [x Hx]; [lia|].
    destruct (lookup_lt_is_Some_2 dc14 k) as [y Hy]; [lia|].
    cbn [seq]. rewrite (count_loop_step _ _ _ x y Hx Hy).
    rewrite IH by lia.
    rewrite (drop_S nfw x k Hx), (drop_S dc14 y k Hy).
    unfold bin_count, Delta_BIC. cbn [zip_with List.filter].
    destruct (in_interval (lo, hi) (sub x y)); cbn [length]; f_equal; lia.
Qed.

Lemma count_loop_short k m sum_0 :
  k + m = length nfw → k ≤ length dc14 → length dc14 < length nfw →
  count_loop lo hi BIC (seq k m) sum_0 = Raise IndexError.
Proof.
  revert k sum_0. induction m as [|m IH]; intros k sum_0 Hk Hle Hlt; [lia|].
  destruct (lookup_lt_is_Some_2 nfw k) as [x Hx]; [lia|].
  destruct (decide (k < length dc14)) as [Hin|Hout].
  - destruct (lookup_lt_is_Some_2 dc14 k Hin) as [y Hy].
    cbn [seq]. rewrite (count_loop_step _ _ _ x y Hx Hy). apply IH; lia.
  - cbn [seq count_loop].
    rewrite (getitem_Some _ _ _ HNFW). py_step. rewrite (index_Some _ _ _ Hx). py_step.
    rewrite (getitem_Some _ _ _ HDC14). py_step. unfold index.
    rewrite (lookup_ge_None_2 dc14 k) by lia. reflexivity.
Qed.

Lemma interval_row_Ok :
  length nfw ≤ length dc14 → nfw ≠ [] →
  interval_row BIC (lo, hi)
  = Ok (lo, hi, {| numer := bin_count (lo, hi) (Delta_BIC nfw dc14);
                   denom := length nfw |}).
Proof.
  intros Hle Hne. unfold interval_row. py_step.
  rewrite (getitem_Some _ _ _ HNFW). py_step.
  rewrite (count_loop_from 0 (length nfw) 0) by lia. py_step.
  unfold truediv. destruct nfw; [done|]. reflexivity.
Qed.

Lemma interval_row_short :
  length dc14 < length nfw → interval_row BIC (lo, hi) = Raise IndexError.
Proof.
  intros Hlt. unfold interval_row. py_step.
  rewrite (getitem_Some _ _ _ HNFW). py_step.
  rewrite (count_loop_short 0 (length nfw) 0) by lia. reflexivity.
Qed.

Lemma interval_row_empty :
  nfw = [] → interval_row BIC (lo, hi) = Raise ZeroDivisionError.
Proof.
  intros Hnil. unfold interval_row. py_step.
  rewrite (getitem_Some _ _ _ HNFW). py_step. rewrite Hnil. reflexivity.
Qed.
End Loop.

End CellFacts.

Module BinFacts.
Import Float64Facts RoundingFacts Aggregator checks_DC14_NFW CellFacts.

Section Cell.
Variables (D : gmap string ResultTable) (nfw dc14 : list float64).
Hypothesis HDC14 : concat_subsets D "DC14" "BIC" = Ok dc14.
Hypothesis HNFW : concat_subsets D "NFW" "BIC" = Ok nfw.

Lemma dBIC_cell_Ok :
  length nfw ≤ length dc14 → nfw ≠ [] →
  dBIC_cell D = Ok ("dBIC = BIC_NFW - BIC_DC14", map (row_of nfw dc14) interv_tab).
Proof.
  intros Hle Hne. unfold dBIC_cell.
  rewrite (collect_loop_Ok D dc14 nfw HDC14 HNFW). py_step.
  rewrite (mapM_Ok _ (row_of nfw dc14)); [reflexivity|].
  intros [lo hi] _. apply interval_row_Ok; try assumption.
  - apply lookup_insert_eq.
  - rewrite lookup_insert_ne by done. apply lookup_insert_eq.
Qed.

Lemma dBIC_cell_short :
  length dc14 < length nfw → dBIC_cell D = Raise IndexError.
Proof.
  intros Hlt. unfold dBIC_cell.
  rewrite (collect_loop_Ok D dc14 nfw HDC14 HNFW). py_step.
  unfold interv_tab. rewrite (mapM_Raise _ _ _ IndexError); [reflexivity|].
  apply (interval_row_short _ _ _ nfw dc14); try assumption.
  - apply lookup_insert_eq.
  - rewrite lookup_insert_ne by done. apply lookup_insert_eq.
Qed.

Lemma dBIC_cell_empty :
  nfw = [] → dBIC_cell D = Raise ZeroDivisionError.
Proof.
  intros Hnil. unfold dBIC_cell.
  rewrite (collect_loop_Ok D dc14 nfw HDC14 HNFW). py_step.
  unfold interv_tab. rewrite (mapM_Raise _ _ _ ZeroDivisionError); [reflexivity|].
  apply (interval_row_empty _ _ _ nfw); try assumption.
  apply lookup_insert_eq.
Qed.
End Cell.

(** *** Every finite difference lies in exactly one interval *)

Lemma ltb_ninf (d : float64) : isfinite d = true → ltb ninf d = true.
Proof. destruct d as [s|s| |[] m e]; try discriminate; reflexivity. Qed.

Lemma leb_inf (d : float64) : isfinite d = true → leb d inf = true.
Proof. destruct d as [s|s| |[] m e]; try discriminate; reflexivity. Qed.

Lemma isfinite_not_nan (d : float64) : isfinite d = true → isnan d = false.
Proof. destruct d; try discriminate; reflexivity. Qed.

Lemma partition5 (c1 c2 c3 c4 d : float64) :
  leb c1 c2 = true → leb c2 c3 = true → leb c3 c4 = true →
  isfinite d = true →
  length (List.filter (λ iv, in_interval iv d)
            [(ninf, c1); (c1, c2); (c2, c3); (c3, c4); (c4, inf)]) = 1.
Proof.
  intros H12 H23 H34 Hd.
  pose proof (isfinite_not_nan d Hd) as Hn.
  destruct (leb_not_nan _ _ H12) as [N1 N2], (leb_not_nan _ _ H34) as [N3 N4].
  unfold in_interval, np.masked_invalid. rewrite Hd.
  cbn [List.filter np.between fst snd].
  rewrite (ltb_ninf d Hd), (leb_inf d Hd).
  rewrite !(ltb_negb_leb _ d) by assumption.
  pose proof (leb_trans d c1 c2) as T1.
  pose proof (leb_trans d c2 c3) as T2.
  pose proof (leb_trans d c3 c4) as T3.
  destruct (leb d c1), (leb d c2), (leb d c3), (leb d c4);
    try reflexivity;
    try (specialize (T1 eq_refl H12); discriminate);
    try (specialize (T2 eq_refl H23); discriminate);
    try (specialize (T3 eq_refl H34); discriminate).
Qed.

Lemma one_interval (d : float64) :
  length (List.filter (λ iv, in_interval iv d) interv_tab)
  = if isfinite d then 1 else 0.
Proof.
  destruct (isfinite d) eqn:Hd.
  - apply partition5; [reflexivity..|assumption].
  - unfold interv_tab, in_interval, np.masked_invalid. rewrite Hd. reflexivity.
Qed.

(** *** Counting by interval and counting by galaxy *)

Lemma total_cons (n : nat) (l : list nat) : total (n :: l) = n + total l.
Proof. reflexivity. Qed.

Lemma double_count {A B : Type} (P : A → B → bool) (xs : list A) (ys : list B) :
  total (map (λ x, length (List.filter (P x) ys)) xs)
  = total (map (λ y, length (List.filter (λ x, P x y) xs)) ys).
Proof.
  induction xs as [|x xs IH]; cbn [map List.filter].
  - induction ys as [|y ys IHy]; [reflexivity|].
    cbn [map]. rewrite total_cons, <- IHy. reflexivity.
  - rewrite total_cons, IH. clear IH. induction ys as [|y ys IHy]; [reflexivity|].
    cbn [map List.filter]. rewrite !total_cons, <- IHy.
    destruct (P x y); cbn [length]; lia.
Qed.

Lemma bin_counts_total (ds : list float64) :
  total (map (λ iv, bin_count iv ds) interv_tab)
  = length (List.filter isfinite ds).
Proof.
  unfold bin_count. rewrite (double_count in_interval interv_tab ds).
  induction ds as [|d ds IH]; [reflexivity|].
  cbn [map List.filter]. rewrite total_cons, IH, one_interval.
  destruct (isfinite d); reflexivity.
Qed.

(** *** Fractions with a common denominator *)

Lemma Qsum_common_denom (rs : list ratio) (n : nat) :
  n ≠ 0 → Forall (λ r, denom r = n) rs →
  (Qsum (map fraction rs) == Z.of_nat (total (map numer rs)) # Pos.of_nat n)%Q.
Proof.
  intros Hn Hall. induction Hall as [|r rs Hr _ IH]; [reflexivity|].
  cbn [map]. rewrite total_cons. cbn [Qsum foldr]. fold (Qsum (map fraction rs)). rewrite IH.
  unfold fraction. rewrite Hr. unfold Qeq, Qplus. cbn [Qnum Qden].
  rewrite Nat2Z.inj_add. nia.
Qed.

Lemma Qsum_whole (rs : list ratio) (n : nat) :
  n ≠ 0 → Forall (λ r, denom r = n) rs → total (map numer rs) = n →
  (Qsum (map fraction rs) == 1)%Q.
Proof.
  intros Hn Hall Hsum. rewrite (Qsum_common_denom rs n Hn Hall), Hsum.
  unfold Qeq. cbn [Qnum Qden].
  rewrite <- (positive_nat_Z (Pos.of_nat n)), Nat2Pos.id by assumption. lia.
Qed.

End BinFacts.

(** * The dBIC cell of checks_DC14_NFW *)

Module dBIC.
Import Float64Facts RoundingFacts Aggregator checks_DC14_NFW CellFacts BinFacts Examples.

Lemma sub_nan (x y : float64) :
  isnan x = true ∨ isnan y = true → sub x y = nan.
Proof. intros [H|H]; destruct x, y; try discriminate; reflexivity. Qed.

Lemma in_interval_nan (iv : float64 * float64) : in_interval iv nan = false.
Proof. reflexivity. Qed.

(** A galaxy with a NaN on either side is in no interval: counting over all
    galaxies is counting over the valid ones. *)
Lemma bin_count_valid (iv : float64 * float64) (nfw dc14 : list float64) :
  bin_count iv (Delta_BIC nfw dc14)
  = length (List.filter (λ xy, both_valid xy && in_interval iv (sub xy.1 xy.2))
                        (zip nfw dc14)).
Proof.
  unfold bin_count, Delta_BIC. revert dc14.
  induction nfw as [|x nfw IH]; intros [|y dc14]; try reflexivity.
  cbn [zip_with List.filter fst snd]. unfold both_valid at 1. cbn [fst snd].
  destruct (isnan x) eqn:Hx; [|destruct (isnan y) eqn:Hy].
  - rewrite (sub_nan x y), in_interval_nan by auto. apply IH.
  - rewrite (sub_nan x y), in_interval_nan by auto. apply IH.
  - cbn [negb andb]. destruct (in_interval iv (sub x y)); cbn [length]; f_equal; apply IH.
Qed.

Lemma rows_intervals (nfw dc14 : list float64) (ivs : list (float64 * float64)) :
  map (λ row : float64 * float64 * ratio, (row.1.1, row.1.2)) (map (row_of nfw dc14) ivs) = ivs.
Proof. induction ivs as [|[lo hi] ivs IH]; [reflexivity|]. cbn. f_equal. exact IH. Qed.

Lemma rows_denom (nfw dc14 : list float64) (ivs : list (float64 * float64)) :
  Forall (λ row : float64 * float64 * ratio, denom row.2 = length nfw)
         (map (row_of nfw dc14) ivs).
Proof. induction ivs as [|iv ivs IH]; constructor; [reflexivity|exact IH]. Qed.

Lemma rows_numer (nfw dc14 : list float64) (ivs : list (float64 * float64)) :
  map (λ row : float64 * float64 * ratio, numer row.2) (map (row_of nfw dc14) ivs)
  = map (λ iv, bin_count iv (Delta_BIC nfw dc14)) ivs.
Proof. induction ivs as [|iv ivs IH]; [reflexivity|]. cbn. f_equal. exact IH. Qed.

Lemma filter_all {A : Type} (p : A → bool) (l : list A) :
  Forall (λ x, p x = true) l → List.filter p l = l.
Proof.
  induction 1 as [|x l Hx _ IH]; [reflexivity|]. cbn. rewrite Hx, IH. reflexivity.
Qed.

(** A run of the cell that reaches its end has printed [row_of] for each
    interval. *)
Lemma dBIC_cell_rows (D : gmap string ResultTable)
    (nfw dc14 : list float64) (hdr : string) (rows : list (float64 * float64 * ratio)) :
  concat_subsets D "NFW" "BIC" = Ok nfw →
  concat_subsets D "DC14" "BIC" = Ok dc14 →
  dBIC_cell D = Ok (hdr, rows) →
  length nfw ≤ length dc14 ∧ nfw ≠ [] ∧
  hdr = "dBIC = BIC_NFW - BIC_DC14" ∧ rows = map (row_of nfw dc14) interv_tab.
Proof.
  intros HNFW HDC14 Hcell.
  destruct (decide (length dc14 < length nfw)) as [Hlt|Hle].
  { rewrite (dBIC_cell_short D nfw dc14 HDC14 HNFW Hlt) in Hcell. discriminate. }
  destruct (decide (nfw = [])) as [Hnil|Hne].
  { rewrite (dBIC_cell_empty D nfw dc14 HDC14 HNFW Hnil) in Hcell. discriminate. }
  rewrite (dBIC_cell_Ok D nfw dc14 HDC14 HNFW) in Hcell by (assumption || lia).
  injection Hcell as <- <-. repeat split; [lia|assumption].
Qed.

(** C3.  In the DC14-vs-NFW check the per-galaxy statistic is
    ΔBIC(NFW, DC14) = BIC_NFW − BIC_DC14, as the printed header says:
    whenever the cell runs to its end, the header is
    'dBIC = BIC_NFW - BIC_DC14', the difference of galaxy [j] is
    [BIC['NFW'][j] - BIC['DC14'][j]], and every one of the five rows
    counts these same differences. *)
Theorem dBIC_is_NFW_minus_DC14 (D : gmap string ResultTable)
    (nfw dc14 : list float64) (hdr : string) (rows : list (float64 * float64 * ratio)) :
  concat_subsets D "NFW" "BIC" = Ok nfw →
  concat_subsets D "DC14" "BIC" = Ok dc14 →
  dBIC_cell D = Ok (hdr, rows) →
  hdr = "dBIC = BIC_NFW - BIC_DC14" ∧
  length (Delta_BIC nfw dc14) = length nfw ∧
  (∀ j x y, nfw !! j = Some x → dc14 !! j = Some y →
            Delta_BIC nfw dc14 !! j = Some (sub x y)) ∧
  rows = map (λ iv, (iv.1, iv.2,
                     {| numer := length (List.filter (in_interval iv) (Delta_BIC nfw dc14));
                        denom := length nfw |}))
             interv_tab.
Proof.
  intros HNFW HDC14 Hcell.
  destruct (dBIC_cell_rows D nfw dc14 hdr rows HNFW HDC14 Hcell) as (Hle & Hne & -> & ->).
  split; [reflexivity|]. split; [|split].
  - unfold Delta_BIC. rewrite length_zip_with. lia.
  - intros j x y Hx Hy. unfold Delta_BIC. rewrite lookup_zip_with, Hx. cbn. rewrite Hy.
    reflexivity.
  - reflexivity.
Qed.

Lemma dBIC_is_NFW_minus_DC14_witness :
  dBIC_cell D_finite
  = Ok ("dBIC = BIC_NFW - BIC_DC14",
        map (row_of [of_Z 10; of_Z 3; of_Z 1] [of_Z 1; of_Z 3; of_Z 9]) interv_tab) ∧
  Delta_BIC [of_Z 10; of_Z 3; of_Z 1] [of_Z 1; of_Z 3; of_Z 9] !! 2
  = Some (sub (of_Z 1) (of_Z 9)).
Proof.
  assert (dBIC_cell D_finite
          = Ok ("dBIC = BIC_NFW - BIC_DC14",
                map (row_of [of_Z 10; of_Z 3; of_Z 1] [of_Z 1; of_Z 3; of_Z 9]) interv_tab))
    as Hcell by (vm_compute; reflexivity).
  split; [exact Hcell|].
  destruct (dBIC_is_NFW_minus_DC14 D_finite
              [of_Z 10; of_Z 3; of_Z 1] [of_Z 1; of_Z 3; of_Z 9] _ _
              eq_refl eq_refl Hcell) as (_ & _ & Hdiff & _).
  apply (Hdiff 2); reflexivity.
Defined.

(** C4.  For two models with defined (finite) BIC values for a galaxy,
    ΔBIC(A,B) = −ΔBIC(B,A): the float64 difference taken one way round is
    equal (Python [==]) to the negated difference taken the other way
    round. *)
Theorem Delta_BIC_antisymmetric (BIC_A BIC_B : list float64) (j : nat) (a b : float64) :
  BIC_A !! j = Some a → BIC_B !! j = Some b →
  isfinite a = true → isfinite b = true →
  ∃ d d', Delta_BIC BIC_A BIC_B !! j = Some d ∧
          Delta_BIC BIC_B BIC_A !! j = Some d' ∧
          eqb d (neg d') = true.
Proof.
  intros Ha Hb Fa Fb. exists (sub a b), (sub b a). split; [|split].
  - unfold Delta_BIC. rewrite lookup_zip_with, Ha. cbn. rewrite Hb. reflexivity.
  - unfold Delta_BIC. rewrite lookup_zip_with, Hb. cbn. rewrite Ha. reflexivity.
  - destruct (sub_swap a b) as [Heq|(s & s' & H1 & H2)].
    + rewrite <- Heq. apply eqb_refl, sub_finite_not_nan; assumption.
    + rewrite H1, H2. reflexivity.
Qed.

Lemma Delta_BIC_antisymmetric_witness :
  isfinite (of_Z 3) = true ∧
  ∃ d d', Delta_BIC [of_Z 10; of_Z 3] [of_Z 1; of_Z 3] !! 1 = Some d ∧
          Delta_BIC [of_Z 1; of_Z 3] [of_Z 10; of_Z 3] !! 1 = Some d' ∧
          eqb d (neg d') = true.
Proof.
  split; [reflexivity|].
  apply (Delta_BIC_antisymmetric _ _ 1 (of_Z 3) (of_Z 3)); reflexivity.
Defined.

(** C1 (as stated) fails.  Two galaxies, no NaN anywhere: the first has an
    infinite BIC in both models, so its difference inf − inf is NaN and it
    is counted in no interval.  The five fractions are 0, 0, 1/2, 0, 0.
    Over the empty galaxy set the cell raises ZeroDivisionError. *)
Lemma dBIC_fractions_infinite_BIC :
  (concat_subsets D_infinite "NFW" "BIC" = Ok [inf; one] ∧
   concat_subsets D_infinite "DC14" "BIC" = Ok [inf; one] ∧
   Forall (λ x, isnan x = false) [inf; one] ∧
   ∃ rows, dBIC_cell D_infinite = Ok ("dBIC = BIC_NFW - BIC_DC14", rows) ∧
           map (λ row : float64 * float64 * ratio, (numer row.2, denom row.2)) rows
           = [(0, 2); (0, 2); (1, 2); (0, 2); (0, 2)] ∧
           ¬ (Qsum (map (λ row : float64 * float64 * ratio, fraction row.2) rows) == 1)%Q) ∧
  (concat_subsets D_empty "NFW" "BIC" = Ok [] ∧
   concat_subsets D_empty "DC14" "BIC" = Ok [] ∧
   dBIC_cell D_empty = Raise ZeroDivisionError).
Proof.
  split.
  - split; [vm_compute; reflexivity|]. split; [vm_compute; reflexivity|].
    split; [repeat constructor|].
    eexists. split; [vm_compute; reflexivity|]. split; [reflexivity|].
    vm_compute. discriminate.
  - split; [vm_compute; reflexivity|]. split; vm_compute; reflexivity.
Qed.

(** C1 (amended).  Over a non-empty galaxy set in which every galaxy has
    a finite ΔBIC = BIC_NFW − BIC_DC14, the cell prints one row per
    interval of [interv_tab], every galaxy is in exactly one of the five
    intervals, the counts add up to the number of galaxies, and the
    fractions count/total add up to 1. *)
Theorem dBIC_fractions_sum_to_one (D : gmap string ResultTable)
    (nfw dc14 : list float64) :
  concat_subsets D "NFW" "BIC" = Ok nfw →
  concat_subsets D "DC14" "BIC" = Ok dc14 →
  length nfw = length dc14 →
  nfw ≠ [] →
  Forall (λ d, isfinite d = true) (Delta_BIC nfw dc14) →
  Forall (λ d, length (List.filter (λ iv, in_interval iv d) interv_tab) = 1)
         (Delta_BIC nfw dc14) ∧
  ∃ rows,
    dBIC_cell D = Ok ("dBIC = BIC_NFW - BIC_DC14", rows) ∧
    map (λ row : float64 * float64 * ratio, (row.1.1, row.1.2)) rows = interv_tab ∧
    Forall (λ row : float64 * float64 * ratio, denom row.2 = length nfw) rows ∧
    total (map (λ row : float64 * float64 * ratio, numer row.2) rows) = length nfw ∧
    (Qsum (map (λ row : float64 * float64 * ratio, fraction row.2) rows) == 1)%Q.
Proof.
  intros HNFW HDC14 Hlen Hne Hfin. split.
  { eapply Forall_impl; [exact Hfin|]. intros d Hd. cbn beta in Hd.
    rewrite one_interval, Hd. reflexivity. }
  exists (map (row_of nfw dc14) interv_tab).
  assert (total (map (λ row : float64 * float64 * ratio, numer row.2)
                     (map (row_of nfw dc14) interv_tab)) = length nfw) as Htotal.
  { rewrite rows_numer, bin_counts_total, (filter_all _ _ Hfin).
    unfold Delta_BIC. rewrite length_zip_with. lia. }
  split; [apply dBIC_cell_Ok; assumption || lia|].
  split; [apply rows_intervals|]. split; [apply rows_denom|]. split; [exact Htotal|].
  rewrite <- (map_map (λ row : float64 * float64 * ratio, row.2) fraction).
  apply (Qsum_whole _ (length nfw)).
  - destruct nfw; [done|]. cbn. lia.
  - apply Forall_map. apply rows_denom.
  - rewrite map_map. exact Htotal.
Qed.

Lemma dBIC_fractions_sum_to_one_witness :
  Forall (λ d, isfinite d = true)
         (Delta_BIC [of_Z 10; of_Z 3; of_Z 1] [of_Z 1; of_Z 3; of_Z 9]) ∧
  ∃ rows,
    dBIC_cell D_finite = Ok ("dBIC = BIC_NFW - BIC_DC14", rows) ∧
    map (λ row : float64 * float64 * ratio, (row.1.1, row.1.2)) rows = interv_tab ∧
    Forall (λ row : float64 * float64 * ratio, denom row.2 = 3) rows ∧
    total (map (λ row : float64 * float64 * ratio, numer row.2) rows) = 3 ∧
    (Qsum (map (λ row : float64 * float64 * ratio, fraction row.2) rows) == 1)%Q.
Proof.
  assert (Forall (λ d, isfinite d = true)
            (Delta_BIC [of_Z 10; of_Z 3; of_Z 1] [of_Z 1; of_Z 3; of_Z 9])) as Hfin
    by (repeat constructor).
  split; [exact Hfin|].
  refine (proj2 (dBIC_fractions_sum_to_one D_finite
                   [of_Z 10; of_Z 3; of_Z 1] [of_Z 1; of_Z 3; of_Z 9]
                   eq_refl eq_refl eq_refl _ Hfin)).
  discriminate.
Defined.

(** The fractions above are the exact ratios.  The floats the cell prints
    are their roundings, and adding those up can miss 1.0 by one unit in the
    last place: with counts 1, 2, 3, 3, 1 over ten galaxies the exact sum is
    1 and the float64 sum is 1.0000000000000002. *)
Lemma printed_fractions_round :
  Qeq (Qsum (map fraction (map (λ c, {| numer := c; denom := 10 |}) [1; 2; 3; 3; 1]))) 1 ∧
  np.sum (map printed (map (λ c, {| numer := c; denom := 10 |}) [1; 2; 3; 3; 1]))
  = S754_finite false 4503599627370497 (-52) ∧
  of_Z 1 = S754_finite false 4503599627370496 (-52).
Proof. split; [reflexivity|]. split; vm_compute; reflexivity. Qed.

(** C2 (as stated) fails.  In [D_nan] the NFW fit of the second galaxy is
    NaN: one galaxy is valid in both inputs, yet every fraction is taken
    over 2.  In [D_mismatch] the DC14 table has a galaxy the NFW table
    lacks, and the cell prints its fractions without any error. *)
Lemma dBIC_denominator_counts_NaN_galaxy :
  (concat_subsets D_nan "NFW" "BIC" = Ok [one; nan] ∧
   concat_subsets D_nan "DC14" "BIC" = Ok [one; one] ∧
   length (List.filter both_valid (zip [one; nan] [one; one])) = 1 ∧
   ∃ rows, dBIC_cell D_nan = Ok ("dBIC = BIC_NFW - BIC_DC14", rows) ∧
           Forall (λ row : float64 * float64 * ratio, denom row.2 = 2) rows) ∧
  (concat_subsets D_mismatch "NFW" "BIC" = Ok [one] ∧
   concat_subsets D_mismatch "DC14" "BIC" = Ok [one; of_Z 5] ∧
   ∃ rows, dBIC_cell D_mismatch = Ok ("dBIC = BIC_NFW - BIC_DC14", rows)).
Proof.
  split.
  - split; [vm_compute; reflexivity|]. split; [vm_compute; reflexivity|].
    split; [reflexivity|].
    eexists. split; [vm_compute; reflexivity|]. repeat constructor.
  - split; [vm_compute; reflexivity|]. split; [vm_compute; reflexivity|].
    eexists. vm_compute. reflexivity.
Qed.

(** C2 (amended).  The cell compares the two BIC arrays position by
    position and checks nothing else about the galaxy sets: a DC14 array
    shorter than the NFW array raises IndexError; otherwise (NFW array
    non-empty) each row counts the galaxies that are valid (not NaN) in
    both inputs and whose difference is in the interval, so a galaxy with
    a NaN in either input adds to no count, while the denominator of every
    fraction is the length of the NFW array, NaN galaxies included. *)
Theorem dBIC_counts_valid_galaxies (D : gmap string ResultTable)
    (nfw dc14 : list float64) :
  concat_subsets D "NFW" "BIC" = Ok nfw →
  concat_subsets D "DC14" "BIC" = Ok dc14 →
  (length dc14 < length nfw → dBIC_cell D = Raise IndexError) ∧
  (length nfw ≤ length dc14 → nfw ≠ [] →
   dBIC_cell D
   = Ok ("dBIC = BIC_NFW - BIC_DC14",
         map (λ iv,
                (iv.1, iv.2,
                 {| numer := length (List.filter
                                       (λ xy, both_valid xy && in_interval iv (sub xy.1 xy.2))
                                       (zip nfw dc14));
                    denom := length nfw |}))
             interv_tab)).
Proof.
  intros HNFW HDC14. split.
  - apply dBIC_cell_short; assumption.
  - intros Hle Hne. rewrite (dBIC_cell_Ok D nfw dc14 HDC14 HNFW Hle Hne).
    do 2 f_equal. apply map_ext. intros iv. unfold row_of.
    rewrite bin_count_valid. reflexivity.
Qed.

Lemma dBIC_counts_valid_galaxies_witness :
  concat_subsets D_nan "NFW" "BIC" = Ok [one; nan] ∧
  concat_subsets D_nan "DC14" "BIC" = Ok [one; one] ∧
  dBIC_cell D_nan
  = Ok ("dBIC = BIC_NFW - BIC_DC14",
        map (λ iv,
               (iv.1, iv.2,
                {| numer := length (List.filter
                                      (λ xy, both_valid xy && in_interval iv (sub xy.1 xy.2))
                                      (zip [one; nan] [one; one]));
                   denom := 2 |}))
            interv_tab).
Proof.
  split; [reflexivity|]. split; [reflexivity|].
  refine (proj2 (dBIC_counts_valid_galaxies D_nan [one; nan] [one; one] eq_refl eq_refl) _ _).
  - cbn. lia.
  - discriminate.
Defined.

End dBIC.

(** * The bulge subsets behind every aggregate *)

Module Subsets.
Import Aggregator checks_DC14_NFW CellFacts BinFacts Examples.

Lemma mapM_ext {A B : Type} (f g : A → py B) (l : list A) :
  (∀ x, f x = g x) → mapM f l = mapM g l.
Proof.
  intros H. induction l as [|x l IH]; [reflexivity|].
  cbn. rewrite H, IH. reflexivity.
Qed.

(** The three statistics cells read the dictionary through
    [concat_subsets] only. *)
Lemma cells_ext (D D' : gmap string ResultTable) :
  (∀ key stat, concat_subsets D' key stat = concat_subsets D key stat) →
  checks_Einasto_NFW.chisq_cell D' = checks_Einasto_NFW.chisq_cell D ∧
  redchi_cell D' = redchi_cell D ∧
  dBIC_cell D' = dBIC_cell D.
Proof.
  intros H. split; [|split].
  - unfold checks_Einasto_NFW.chisq_cell. apply mapM_ext. intros key. rewrite H. reflexivity.
  - unfold redchi_cell. apply mapM_ext. intros key. rewrite H. reflexivity.
  - unfold dBIC_cell, model_keys. cbn [collect_loop]. rewrite !H. reflexivity.
Qed.

Lemma concat_subsets_other_subset (D : gmap string ResultTable) key T k v :
  D !! key = Some T → k ≠ "Vbulge_none" → k ≠ "Vbulge" →
  ∀ key' stat,
    concat_subsets (<[key := <[k := v]> T]> D) key' stat = concat_subsets D key' stat.
Proof.
  intros HT Hk0 Hk1 key' stat. unfold concat_subsets, getitem.
  destruct (decide (key' = key)) as [->|Hne].
  - rewrite lookup_insert_eq, HT. cbn [mbind py_bind].
    rewrite !lookup_insert_ne by done. reflexivity.
  - rewrite lookup_insert_ne by done. reflexivity.
Qed.

Lemma concat_subsets_split (D : gmap string ResultTable) key stat l :
  concat_subsets D key stat = Ok l →
  ∃ T a b, D !! key = Some T ∧ subsets T stat a b ∧ l = a ++ b.
Proof.
  intros (T & s0 & s1 & a & b & HT & H0 & Ha & H1 & Hb & ->)%concat_subsets_Ok.
  exists T, a, b. split; [exact HT|]. split; [|reflexivity].
  exists s0, s1. auto.
Qed.

(** On the notebook's dictionary, a cell that runs to its end has found
    both ['Vbulge_none'] and ['Vbulge'] in each table; its median, mean and
    dBIC fractions are taken over the concatenation of the two subsets'
    arrays; and an entry under any other key changes nothing. *)
Lemma cells_read_subsets (D : gmap string ResultTable) :
  (∀ out, checks_Einasto_NFW.chisq_cell D = Ok out →
     ∃ TE TN aE bE aN bN,
       D !! "Einasto" = Some TE ∧ D !! "NFW" = Some TN ∧
       subsets TE "Chi_sq" aE bE ∧ subsets TN "Chi_sq" aN bN ∧
       out = [("Einasto", np.nanmedian (aE ++ bE), np.nanmean (aE ++ bE));
              ("NFW", np.nanmedian (aN ++ bN), np.nanmean (aN ++ bN))]) ∧
  (∀ out, redchi_cell D = Ok out →
     ∃ TD TN aD bD aN bN,
       D !! "DC14" = Some TD ∧ D !! "NFW" = Some TN ∧
       subsets TD "Chi_sq" aD bD ∧ subsets TN "Chi_sq" aN bN ∧
       out = [("DC14", np.nanmedian (aD ++ bD)); ("NFW", np.nanmedian (aN ++ bN))]) ∧
  (∀ hdr rows, dBIC_cell D = Ok (hdr, rows) →
     ∃ TD TN aD bD aN bN,
       D !! "DC14" = Some TD ∧ D !! "NFW" = Some TN ∧
       subsets TD "BIC" aD bD ∧ subsets TN "BIC" aN bN ∧
       rows = map (row_of (aN ++ bN) (aD ++ bD)) interv_tab ∧
       Forall (λ row : float64 * float64 * ratio, denom row.2 = length aN + length bN) rows) ∧
  (∀ key T k v,
     D !! key = Some T → k ≠ "Vbulge_none" → k ≠ "Vbulge" →
     checks_Einasto_NFW.chisq_cell (<[key := <[k := v]> T]> D)
     = checks_Einasto_NFW.chisq_cell D ∧
     redchi_cell (<[key := <[k := v]> T]> D) = redchi_cell D ∧
     dBIC_cell (<[key := <[k := v]> T]> D) = dBIC_cell D).
Proof.
  split; [|split; [|split]].
  - intros out. unfold checks_Einasto_NFW.chisq_cell, checks_Einasto_NFW.model_keys.
    cbn [mapM mbind mret py_bind py_ret].
    destruct (concat_subsets D "Einasto" "Chi_sq") as [lE|] eqn:HE; [|discriminate].
    destruct (concat_subsets D "NFW" "Chi_sq") as [lN|] eqn:HN; [|discriminate].
    cbn [mbind py_bind]. intros [= <-].
    destruct (concat_subsets_split _ _ _ _ HE) as (TE & aE & bE & ? & ? & ->).
    destruct (concat_subsets_split _ _ _ _ HN) as (TN & aN & bN & ? & ? & ->).
    exists TE, TN, aE, bE, aN, bN. auto.
  - intros out. unfold redchi_cell, model_keys.
    cbn [mapM mbind mret py_bind py_ret].
    destruct (concat_subsets D "DC14" "Chi_sq") as [lD|] eqn:HD; [|discriminate].
    destruct (concat_subsets D "NFW" "Chi_sq") as [lN|] eqn:HN; [|discriminate].
    cbn [mbind py_bind]. intros [= <-].
    destruct (concat_subsets_split _ _ _ _ HD) as (TD & aD & bD & ? & ? & ->).
    destruct (concat_subsets_split _ _ _ _ HN) as (TN & aN & bN & ? & ? & ->).
    exists TD, TN, aD, bD, aN, bN. auto.
  - intros hdr rows Hcell.
    destruct (concat_subsets D "DC14" "BIC") as [lD|] eqn:HD;
      [|unfold dBIC_cell, model_keys in Hcell; cbn [collect_loop] in Hcell;
        rewrite HD in Hcell; discriminate].
    destruct (concat_subsets D "NFW" "BIC") as [lN|] eqn:HN;
      [|unfold dBIC_cell, model_keys in Hcell; cbn [collect_loop] in Hcell;
        rewrite HD, HN in Hcell; discriminate].
    destruct (dBIC.dBIC_cell_rows D lN lD hdr rows HN HD Hcell) as (_ & _ & _ & Hrows).
    destruct (concat_subsets_split _ _ _ _ HD) as (TD & aD & bD & ? & ? & ->).
    destruct (concat_subsets_split _ _ _ _ HN) as (TN & aN & bN & ? & ? & ->).
    exists TD, TN, aD, bD, aN, bN. do 4 (split; [assumption|]).
    split; [exact Hrows|]. rewrite Hrows, <- length_app. apply dBIC.rows_denom.
  - intros key T k v HT Hk0 Hk1. apply cells_ext.
    apply concat_subsets_other_subset; assumption.
Qed.

End Subsets.

(** * The nan-aware statistics of the chi-square cells *)

Module Statistics.
Import Float64Facts RoundingFacts SumFacts Aggregator checks_DC14_NFW CellFacts BinFacts Examples.

Lemma sum_replace_nan (a : list float64) (acc : float64) :
  signbit acc = false → Forall (λ x, signbit x = false) a →
  foldl add acc (np.replace_nan a).1
  = foldl add acc (List.filter (λ x, negb (isnan x)) a).
Proof.
  intros Hacc Ha. revert acc Hacc.
  induction Ha as [|x a Hx _ IH]; intros acc Hacc; [reflexivity|].
  cbn [np.replace_nan fst map List.filter foldl].
  destruct (isnan x) eqn:Hn; cbn [negb foldl].
  - rewrite (add_zero_r acc Hacc). apply IH, Hacc.
  - apply IH, add_signbit; assumption.
Qed.

Lemma count_replace_nan (a : list float64) :
  length (List.filter negb (np.replace_nan a).2)
  = length (List.filter (λ x, negb (isnan x)) a).
Proof.
  induction a as [|x a IH]; [reflexivity|].
  cbn [np.replace_nan snd map List.filter] in *.
  destruct (isnan x); cbn [negb length]; [|f_equal]; exact IH.
Qed.

Lemma filter_length_le {A : Type} (p : A → bool) (l : list A) :
  length (List.filter p l) ≤ length l.
Proof.
  induction l as [|x l IH]; [reflexivity|]. cbn. destruct (p x); cbn; lia.
Qed.

(** On fewer than eight chi-square values (sign bit clear or NaN) the
    nan-mean is the mean of the entries that are not NaN. *)
Lemma nanmean_ignores_nan (a : list float64) :
  length a < 8 → Forall (λ x, signbit x = false) a →
  np.nanmean a = np.mean (List.filter (λ x, negb (isnan x)) a).
Proof.
  intros Hlen Ha. unfold np.nanmean, np.mean.
  pose proof (sum_replace_nan a zero eq_refl Ha) as Hsum.
  pose proof (count_replace_nan a) as Hcnt.
  pose proof (filter_length_le (λ x, negb (isnan x)) a) as Hle.
  assert (length (np.replace_nan a).1 = length a) as Hlen1
    by (cbn [np.replace_nan fst]; apply length_map).
  destruct (np.replace_nan a) as [arr mask]. cbn [fst snd] in *.
  rewrite (sum_lt8 arr), (sum_lt8 (List.filter _ a)), Hsum, Hcnt by lia.
  reflexivity.
Qed.

Section Batch.
Context {G : Type}.
Variable fitter : G → Batch.outcome.
Hypothesis chi_sq_valid :
  ∀ g c b, fitter g = Batch.Converged c b → isnan c = false ∧ signbit c = false.

Let column := Batch.Chi_sq_column fitter.

Lemma column_signbit galaxies : Forall (λ x, signbit x = false) (column galaxies).
Proof.
  induction galaxies as [|g gs IH]; constructor; [|exact IH].
  destruct (fitter g) as [c b|] eqn:Hg; [|reflexivity].
  apply (chi_sq_valid g c b Hg).
Qed.

Lemma column_valid galaxies :
  List.filter (λ x, negb (isnan x)) (column galaxies)
  = Batch.converged_Chi_sq fitter galaxies.
Proof.
  induction galaxies as [|g gs IH]; [reflexivity|].
  unfold column, Batch.Chi_sq_column in *.
  cbn [map List.filter Batch.converged_Chi_sq].
  destruct (fitter g) as [c b|] eqn:Hg; cbn [Batch.entry fst].
  - destruct (chi_sq_valid g c b Hg) as [-> _]. cbn [negb]. f_equal. exact IH.
  - cbn [isnan nan negb]. exact IH.
Qed.

Lemma column_zero_filled galaxies :
  (np.replace_nan (column galaxies)).1 = zero_filled fitter galaxies.
Proof.
  unfold column, Batch.Chi_sq_column, zero_filled. cbn [np.replace_nan fst].
  rewrite map_map. apply map_ext. intros g.
  destruct (fitter g) as [c b|] eqn:Hg; cbn [Batch.entry fst]; [|reflexivity].
  destruct (chi_sq_valid g c b Hg) as [-> _]. reflexivity.
Qed.

(** What the chi-square cell prints for a column of the batch *)
Lemma column_statistics galaxies :
  np.nanmedian (column galaxies)
  = Batch.median_of_valid (Batch.converged_Chi_sq fitter galaxies) ∧
  np.nanmean (column galaxies)
  = div (np.sum (zero_filled fitter galaxies))
        (of_Z (Z.of_nat (length (Batch.converged_Chi_sq fitter galaxies)))) ∧
  (length galaxies < 8 →
   np.nanmean (column galaxies) = np.mean (Batch.converged_Chi_sq fitter galaxies)).
Proof.
  split; [|split].
  - unfold np.nanmedian, Batch.median_of_valid. rewrite column_valid. reflexivity.
  - unfold np.nanmean.
    pose proof (column_zero_filled galaxies) as Harr.
    pose proof (count_replace_nan (column galaxies)) as Hcnt.
    destruct (np.replace_nan (column galaxies)) as [arr mask]. cbn [fst snd] in *.
    rewrite Harr, Hcnt, column_valid. reflexivity.
  - intros Hlen. rewrite nanmean_ignores_nan, column_valid.
    + reflexivity.
    + unfold column, Batch.Chi_sq_column. rewrite length_map. exact Hlen.
    + apply column_signbit.
Qed.
End Batch.

Section Tables.
Context {G : Type}.
Variable fitter : G → Batch.outcome.

Lemma concat_fit key stat (D : gmap string ResultTable) no_bulge bulge :
  D !! key = Some (Batch.fit fitter no_bulge bulge) →
  stat = "Chi_sq" →
  concat_subsets D key stat = Ok (Batch.Chi_sq_column fitter (no_bulge ++ bulge)).
Proof.
  intros HD ->. apply concat_subsets_Ok.
  exists (Batch.fit fitter no_bulge bulge),
    (Batch.subset_table fitter no_bulge), (Batch.subset_table fitter bulge),
    (Batch.Chi_sq_column fitter no_bulge), (Batch.Chi_sq_column fitter bulge).
  split; [exact HD|]. split; [reflexivity|]. split; [reflexivity|].
  split; [reflexivity|]. split; [reflexivity|].
  unfold Batch.Chi_sq_column. apply map_app.
Qed.

Lemma concat_fit_BIC key (D : gmap string ResultTable) no_bulge bulge :
  D !! key = Some (Batch.fit fitter no_bulge bulge) →
  concat_subsets D key "BIC" = Ok (Batch.BIC_column fitter (no_bulge ++ bulge)).
Proof.
  intros HD. apply concat_subsets_Ok.
  exists (Batch.fit fitter no_bulge bulge),
    (Batch.subset_table fitter no_bulge), (Batch.subset_table fitter bulge),
    (Batch.BIC_column fitter no_bulge), (Batch.BIC_column fitter bulge).
  split; [exact HD|]. split; [reflexivity|]. split; [reflexivity|].
  split; [reflexivity|]. split; [reflexivity|].
  unfold Batch.BIC_column. apply map_app.
Qed.
End Tables.

(** In the dBIC cell a galaxy is counted for an interval exactly when both
    of its fits converged and the difference of the BICs is in it. *)
Lemma bin_count_counted {G : Type} (fitter_A fitter_B : G → Batch.outcome)
    (iv : float64 * float64) (galaxies : list G) :
  bin_count iv (Delta_BIC (Batch.BIC_column fitter_A galaxies)
                          (Batch.BIC_column fitter_B galaxies))
  = length (List.filter (counted fitter_A fitter_B iv) galaxies).
Proof.
  unfold bin_count, Delta_BIC, Batch.BIC_column.
  induction galaxies as [|g gs IH]; [reflexivity|].
  cbn [map zip_with List.filter]. unfold counted at 1.
  destruct (fitter_A g) as [cA bA|], (fitter_B g) as [cB bB|]; cbn [Batch.entry snd].
  - destruct (in_interval iv (sub bA bB)); cbn [length]; [f_equal|]; exact IH.
  - replace (sub bA nan) with nan by (destruct bA; reflexivity).
    rewrite dBIC.in_interval_nan. exact IH.
  - cbn [sub SFsub nan]. rewrite dBIC.in_interval_nan. exact IH.
  - cbn [sub SFsub nan]. rewrite dBIC.in_interval_nan. exact IH.
Qed.

(** C5 (as stated) fails.  Of the three galaxies of the batch the second
    has no fit.  It is in no interval of the dBIC cell, but it is not left
    out of the statistic: every fraction is over 3 galaxies, where the two
    galaxies with a fit alone give fractions over 2, and the printed
    fractions add up to 2/3.  And in a batch of nine galaxies of which the
    first has no fit, the chi-square cell prints a mean that is not the mean
    of the eight chi-squares of the converged fits: the 0.0 that stands for
    the failed fit in the sum changes the pairs NumPy adds. *)
Lemma failed_fit_in_denominator_and_sum :
  (∃ rows rows',
     dBIC_cell {[ "DC14" := Batch.fit fitter_ex [0; 1] [2];
                  "NFW" := Batch.fit fitter_ex [0; 1] [2] ]}
     = Ok ("dBIC = BIC_NFW - BIC_DC14", rows) ∧
     dBIC_cell {[ "DC14" := Batch.fit fitter_ex [0] [2];
                  "NFW" := Batch.fit fitter_ex [0] [2] ]}
     = Ok ("dBIC = BIC_NFW - BIC_DC14", rows') ∧
     map (λ row : float64 * float64 * ratio, (numer row.2, denom row.2)) rows
     = [(0, 3); (0, 3); (2, 3); (0, 3); (0, 3)] ∧
     map (λ row : float64 * float64 * ratio, (numer row.2, denom row.2)) rows'
     = [(0, 2); (0, 2); (2, 2); (0, 2); (0, 2)] ∧
     Qeq (Qsum (map (λ row : float64 * float64 * ratio, fraction row.2) rows)) (2 # 3)) ∧
  (∃ median printed_mean,
     checks_Einasto_NFW.chisq_cell
       {[ "Einasto" := Batch.fit fitter_nine [0; 1; 2; 3; 4; 5; 6; 7; 8] [];
          "NFW" := Batch.fit fitter_nine [0; 1; 2; 3; 4; 5; 6; 7; 8] [] ]}
     = Ok [("Einasto", median, printed_mean); ("NFW", median, printed_mean)] ∧
     printed_mean = S754_finite false 5000000000000004 (-2) ∧
     np.mean (Batch.converged_Chi_sq fitter_nine [0; 1; 2; 3; 4; 5; 6; 7; 8])
     = S754_finite false 5000000000000003 (-2) ∧
     printed_mean ≠ np.mean (Batch.converged_Chi_sq fitter_nine [0; 1; 2; 3; 4; 5; 6; 7; 8])).
Proof.
  split.
  - eexists _, _. split; [vm_compute; reflexivity|]. split; [vm_compute; reflexivity|].
    split; [reflexivity|]. split; [reflexivity|]. vm_compute. reflexivity.
  - eexists _, _. split; [vm_compute; reflexivity|]. split; [reflexivity|].
    split; [vm_compute; reflexivity|]. vm_compute. discriminate.
Qed.

(** C5 (amended).  Whichever fits of a batch fail, the statistics cells run
    on its tables without an exception and no NaN entry is used as a value.
    The chi-square cells print, for each model, the median of the
    chi-squares of the converged fits, and as the mean the float64 sum of
    the column with 0.0 for every failed fit, divided by the number of
    converged fits; for fewer than eight galaxies this is the mean of the
    chi-squares of the converged fits.  In the dBIC cell a galaxy with a
    failed fit is counted in no interval, and it stays in the denominator
    of every fraction, which is the number of all galaxies. *)
Theorem failed_fits_in_statistics {G : Type}
    (fitter_Einasto fitter_DC14 fitter_NFW : G → Batch.outcome)
    (no_bulge bulge : list G) :
  (∀ g c b, fitter_Einasto g = Batch.Converged c b → isnan c = false ∧ signbit c = false) →
  (∀ g c b, fitter_DC14 g = Batch.Converged c b → isnan c = false ∧ signbit c = false) →
  (∀ g c b, fitter_NFW g = Batch.Converged c b → isnan c = false ∧ signbit c = false) →
  redchi_cell
    {[ "DC14" := Batch.fit fitter_DC14 no_bulge bulge;
       "NFW" := Batch.fit fitter_NFW no_bulge bulge ]}
  = Ok [("DC14",
         Batch.median_of_valid (Batch.converged_Chi_sq fitter_DC14 (no_bulge ++ bulge)));
        ("NFW",
         Batch.median_of_valid (Batch.converged_Chi_sq fitter_NFW (no_bulge ++ bulge)))] ∧
  checks_Einasto_NFW.chisq_cell
    {[ "Einasto" := Batch.fit fitter_Einasto no_bulge bulge;
       "NFW" := Batch.fit fitter_NFW no_bulge bulge ]}
  = Ok [("Einasto",
         Batch.median_of_valid (Batch.converged_Chi_sq fitter_Einasto (no_bulge ++ bulge)),
         div (np.sum (zero_filled fitter_Einasto (no_bulge ++ bulge)))
             (of_Z (Z.of_nat (length (Batch.converged_Chi_sq fitter_Einasto
                                        (no_bulge ++ bulge))))));
        ("NFW",
         Batch.median_of_valid (Batch.converged_Chi_sq fitter_NFW (no_bulge ++ bulge)),
         div (np.sum (zero_filled fitter_NFW (no_bulge ++ bulge)))
             (of_Z (Z.of_nat (length (Batch.converged_Chi_sq fitter_NFW
                                        (no_bulge ++ bulge))))))] ∧
  (length (no_bulge ++ bulge) < 8 →
   checks_Einasto_NFW.chisq_cell
     {[ "Einasto" := Batch.fit fitter_Einasto no_bulge bulge;
        "NFW" := Batch.fit fitter_NFW no_bulge bulge ]}
   = Ok [("Einasto",
          Batch.median_of_valid (Batch.converged_Chi_sq fitter_Einasto (no_bulge ++ bulge)),
          np.mean (Batch.converged_Chi_sq fitter_Einasto (no_bulge ++ bulge)));
         ("NFW",
          Batch.median_of_valid (Batch.converged_Chi_sq fitter_NFW (no_bulge ++ bulge)),
          np.mean (Batch.converged_Chi_sq fitter_NFW (no_bulge ++ bulge)))]) ∧
  (no_bulge ++ bulge ≠ [] →
   dBIC_cell
     {[ "DC14" := Batch.fit fitter_DC14 no_bulge bulge;
        "NFW" := Batch.fit fitter_NFW no_bulge bulge ]}
   = Ok ("dBIC = BIC_NFW - BIC_DC14",
         map (λ iv : float64 * float64,
                (iv.1, iv.2,
                 {| numer := length (List.filter (counted fitter_NFW fitter_DC14 iv)
                                                 (no_bulge ++ bulge));
                    denom := length (no_bulge ++ bulge) |}))
             interv_tab)).
Proof.
  intros HE HD HN.
  assert (mapM (λ key, chisq ← concat_subsets
                                   {[ "Einasto" := Batch.fit fitter_Einasto no_bulge bulge;
                                      "NFW" := Batch.fit fitter_NFW no_bulge bulge ]}
                                   key "Chi_sq";
                         mret (key, np.nanmedian chisq, np.nanmean chisq))
                 checks_Einasto_NFW.model_keys
            = Ok [("Einasto",
                   np.nanmedian (Batch.Chi_sq_column fitter_Einasto (no_bulge ++ bulge)),
                   np.nanmean (Batch.Chi_sq_column fitter_Einasto (no_bulge ++ bulge)));
                  ("NFW",
                   np.nanmedian (Batch.Chi_sq_column fitter_NFW (no_bulge ++ bulge)),
                   np.nanmean (Batch.Chi_sq_column fitter_NFW (no_bulge ++ bulge)))]) as Hcell.
  { unfold checks_Einasto_NFW.model_keys.
    cbn [mapM mbind mret py_bind py_ret].
    rewrite (concat_fit fitter_Einasto "Einasto" "Chi_sq" _ no_bulge bulge)
      by (reflexivity || apply lookup_insert_eq).
    rewrite (concat_fit fitter_NFW "NFW" "Chi_sq" _ no_bulge bulge)
      by (reflexivity || (rewrite lookup_insert_ne by done; apply lookup_insert_eq)).
    reflexivity. }
  destruct (column_statistics fitter_Einasto HE (no_bulge ++ bulge)) as (EM & EA & ES).
  destruct (column_statistics fitter_DC14 HD (no_bulge ++ bulge)) as (DM & _ & _).
  destruct (column_statistics fitter_NFW HN (no_bulge ++ bulge)) as (NM & NA & NS).
  split; [|split; [|split]].
  - unfold redchi_cell, model_keys. cbn [mapM mbind mret py_bind py_ret].
    rewrite (concat_fit fitter_DC14 "DC14" "Chi_sq" _ no_bulge bulge)
      by (reflexivity || apply lookup_insert_eq).
    rewrite (concat_fit fitter_NFW "NFW" "Chi_sq" _ no_bulge bulge)
      by (reflexivity || (rewrite lookup_insert_ne by done; apply lookup_insert_eq)).
    cbn [mbind py_bind]. rewrite DM, NM. reflexivity.
  - unfold checks_Einasto_NFW.chisq_cell. rewrite Hcell, EM, NM, EA, NA. reflexivity.
  - intros Hlen. unfold checks_Einasto_NFW.chisq_cell.
    rewrite Hcell, EM, NM, (ES Hlen), (NS Hlen). reflexivity.
  - intros Hne.
    rewrite (dBIC_cell_Ok _ (Batch.BIC_column fitter_NFW (no_bulge ++ bulge))
               (Batch.BIC_column fitter_DC14 (no_bulge ++ bulge))).
    + do 2 f_equal. apply map_ext. intros iv. unfold row_of.
      rewrite bin_count_counted. unfold Batch.BIC_column. rewrite length_map. reflexivity.
    + apply concat_fit_BIC, lookup_insert_eq.
    + apply concat_fit_BIC. rewrite lookup_insert_ne by done. apply lookup_insert_eq.
    + unfold Batch.BIC_column. rewrite !length_map. reflexivity.
    + unfold Batch.BIC_column. intros Hnil. apply Hne.
      destruct (no_bulge ++ bulge); [reflexivity|discriminate].
Qed.

Lemma failed_fits_in_statistics_witness :
  checks_Einasto_NFW.chisq_cell
    {[ "Einasto" := Batch.fit fitter_ex [0; 1] [2];
       "NFW" := Batch.fit fitter_ex [0; 1] [2] ]}
  = Ok [("Einasto", Batch.median_of_valid [of_Z 1; of_Z 3], np.mean [of_Z 1; of_Z 3]);
        ("NFW", Batch.median_of_valid [of_Z 1; of_Z 3], np.mean [of_Z 1; of_Z 3])] ∧
  dBIC_cell
    {[ "DC14" := Batch.fit fitter_ex [0; 1] [2];
       "NFW" := Batch.fit fitter_ex [0; 1] [2] ]}
  = Ok ("dBIC = BIC_NFW - BIC_DC14",
        map (λ iv : float64 * float64,
               (iv.1, iv.2,
                {| numer := length (List.filter (counted fitter_ex fitter_ex iv) [0; 1; 2]);
                   denom := 3 |}))
            interv_tab).
Proof.
  assert (∀ g c b, fitter_ex g = Batch.Converged c b → isnan c = false ∧ signbit c = false)
    as Hvalid.
  { intros [|[|[|g]]] c b; cbn; try discriminate; intros [= <- _]; split; reflexivity. }
  destruct (failed_fits_in_statistics fitter_ex fitter_ex fitter_ex [0; 1] [2]
              Hvalid Hvalid Hvalid)
    as (_ & _ & Hshort & HdBIC).
  split; [apply Hshort; cbn; lia|apply HdBIC; discriminate].
Defined.

End Statistics.

(** * Order of the galaxies *)

Module Ordering.
Import Float64Facts RoundingFacts Aggregator CellFacts Examples.

Lemma filter_Permutation {A : Type} (p : A → bool) (l l' : list A) :
  Permutation l l' → Permutation (List.filter p l) (List.filter p l').
Proof.
  induction 1 as [|x l l' _ IH|x y l|l l' l'' _ IH1 _ IH2]; cbn.
  - constructor.
  - destruct (p x); [constructor|]; exact IH.
  - destruct (p x), (p y); try reflexivity. constructor.
  - etransitivity; eassumption.
Qed.

Lemma Qsum_Permutation (l l' : list Q) :
  Permutation l l' → (Qsum l == Qsum l')%Q.
Proof.
  unfold Qsum.
  induction 1 as [|x l l' _ IH|x y l|l l' l'' _ IH1 _ IH2]; cbn [foldr].
  - reflexivity.
  - rewrite IH. reflexivity.
  - ring.
  - rewrite IH1. exact IH2.
Qed.

(** *** Sorting chi-square values *)

Lemma lex3_Eq (a b : Z * Z * Z) : lex3 a b = Eq → a = b.
Proof.
  destruct a as [[a1 a2] a3], b as [[b1 b2] b3]. unfold lex3. cbn [fst snd].
  destruct (Z.compare_spec a1 b1); try discriminate.
  destruct (Z.compare_spec a2 b2); try discriminate.
  destruct (Z.compare_spec a3 b3); try discriminate.
  intros _. congruence.
Qed.

Lemma rank_inj (x y : float64) :
  isnan x = false → isnan y = false → signbit x = false → signbit y = false →
  rank x = rank y → x = y.
Proof.
  destruct x as [[]|[]| |[] mx ex], y as [[]|[]| |[] my ey];
    try discriminate; intros _ _ _ _; try reflexivity.
  intros [= -> ->]. reflexivity.
Qed.

Lemma leb_antisym (x y : float64) :
  signbit x = false → signbit y = false →
  leb x y = true → leb y x = true → x = y.
Proof.
  intros Sx Sy Hxy Hyx. destruct (leb_not_nan _ _ Hxy) as [Nx Ny].
  apply rank_inj; try assumption. apply lex3_Eq.
  apply (leb_rank x y Nx Ny) in Hxy. apply (leb_rank y x Ny Nx) in Hyx.
  rewrite (lex3_antisym (rank x) (rank y)) in Hyx.
  destruct (lex3 (rank x) (rank y)); [reflexivity|..]; cbn in Hyx; congruence.
Qed.

Lemma leb_total (x y : float64) :
  isnan x = false → isnan y = false → leb x y = false → leb y x = true.
Proof.
  intros Nx Ny. unfold leb, SFleb.
  rewrite (compare_rank x y Nx Ny), (compare_rank y x Ny Nx),
    (lex3_antisym (rank x) (rank y)).
  destruct (lex3 (rank x) (rank y)); cbn; congruence.
Qed.

Lemma insert_sorted_Permutation (x : float64) (l : list float64) :
  Permutation (np.insert_sorted x l) (x :: l).
Proof.
  induction l as [|y l IH]; cbn [np.insert_sorted]; [reflexivity|].
  destruct (leb x y); [reflexivity|].
  rewrite IH. apply perm_swap.
Qed.

Lemma sort_Permutation (a : list float64) : Permutation (np.sort a) a.
Proof.
  induction a as [|x a IH]; [reflexivity|].
  cbn [np.sort foldr]. fold (np.sort a).
  rewrite insert_sorted_Permutation, IH. reflexivity.
Qed.

Lemma insert_sorted_sorted (x : float64) (l : list float64) :
  isnan x = false → Forall (λ y, isnan y = false) l →
  StronglySorted (λ u v, leb u v = true) l →
  StronglySorted (λ u v, leb u v = true) (np.insert_sorted x l).
Proof.
  intros Nx Hl Hs. induction Hs as [|y l Hs IH Hy]; cbn [np.insert_sorted].
  - repeat constructor.
  - apply Forall_cons in Hl as [Ny Hl].
    destruct (leb x y) eqn:Hxy.
    + constructor; [constructor; assumption|].
      constructor; [exact Hxy|].
      eapply Forall_impl; [exact Hy|]. intros z Hz. cbn beta in *.
      exact (leb_trans x y z Hxy Hz).
    + constructor; [apply IH, Hl|].
      rewrite (insert_sorted_Permutation x l).
      constructor; [apply leb_total; assumption|exact Hy].
Qed.

Lemma sort_sorted (a : list float64) :
  Forall (λ y, isnan y = false) a →
  StronglySorted (λ u v, leb u v = true) (np.sort a).
Proof.
  induction 1 as [|x a Nx Ha IH]; [constructor|].
  cbn [np.sort foldr]. fold (np.sort a).
  apply insert_sorted_sorted; [exact Nx| |exact IH].
  rewrite (sort_Permutation a). exact Ha.
Qed.

Lemma sort_unique (a a' : list float64) :
  Forall (λ x, isnan x = false ∧ signbit x = false) a →
  Permutation a a' → np.sort a = np.sort a'.
Proof.
  intros Ha Hp.
  assert (Forall (λ x, isnan x = false ∧ signbit x = false) a') as Ha'
    by (rewrite <- Hp; exact Ha).
  apply (StronglySorted_unique_strong (λ u v, leb u v = true)).
  - intros x1 x2 H1 H2. rewrite sort_Permutation in H1, H2.
    rewrite Forall_forall in Ha, Ha'.
    apply leb_antisym; [apply (Ha x1 H1)|apply (Ha' x2 H2)].
  - apply sort_sorted. eapply Forall_impl; [exact Ha|]. intros x [H _]. exact H.
  - apply sort_sorted. eapply Forall_impl; [exact Ha'|]. intros x [H _]. exact H.
  - rewrite !sort_Permutation. exact Hp.
Qed.

(** The nan-median of chi-square values does not depend on their order. *)
Lemma nanmedian_Permutation (a a' : list float64) :
  Forall (λ x, signbit x = false) a →
  Permutation a a' → np.nanmedian a = np.nanmedian a'.
Proof.
  intros Ha Hp. unfold np.nanmedian.
  pose proof (filter_Permutation (λ x, negb (isnan x)) a a' Hp) as Hf.
  assert (Forall (λ x, isnan x = false ∧ signbit x = false)
                 (List.filter (λ x, negb (isnan x)) a)) as Hvalid.
  { rewrite Forall_forall in Ha. apply Forall_forall. intros x Hx.
    apply list_elem_of_In, filter_In in Hx as [Hin Hn].
    split; [destruct (isnan x); [discriminate|reflexivity]|].
    apply Ha, list_elem_of_In, Hin. }
  rewrite <- (Permutation_length Hf).
  destruct (Nat.eqb _ 0); [reflexivity|].
  unfold np.median. rewrite <- (Permutation_length Hf).
  rewrite (sort_unique _ _ Hvalid Hf). reflexivity.
Qed.

Lemma sum_two (x y : float64) : np.sum [x; y] = np.sum [y; x].
Proof.
  rewrite !SumFacts.sum_lt8 by (cbn; lia). cbn [foldl].
  destruct x as [[]|[]| |sx mx ex], y as [[]|[]| |sy my ey]; try reflexivity.
  change (add zero (add (S754_finite sx mx ex) (S754_finite sy my ey))
          = add zero (add (S754_finite sy my ey) (S754_finite sx mx ex))).
  f_equal. apply add_comm.
Qed.

(** C8 (as stated) fails.  The bulge-free subset holds the same three
    galaxies in [D_order_1] and [D_order_2], with chi-squares 1e16, 1, 1
    and 1, 1, 1e16.  The float64 sums are 1e16 and 1e16 + 2, and the cell
    prints the means 3333333333333333.5 and 3333333333333334.0. *)
Lemma summed_chi_sq_depends_on_order :
  Permutation [e16; one; one] [one; one; e16] ∧
  np.sum [e16; one; one] = S754_finite false 5000000000000000 1 ∧
  np.sum [one; one; e16] = S754_finite false 5000000000000001 1 ∧
  (∃ m1 m2,
     checks_Einasto_NFW.chisq_cell D_order_1
     = Ok [("Einasto", one, m1); ("NFW", one, m1)] ∧
     checks_Einasto_NFW.chisq_cell D_order_2
     = Ok [("Einasto", one, m2); ("NFW", one, m2)] ∧
     m1 ≠ m2).
Proof.
  split; [apply (Permutation_cons_append [one; one] e16)|].
  split; [vm_compute; reflexivity|]. split; [vm_compute; reflexivity|].
  exists (S754_finite false 6666666666666667 (-1)),
         (S754_finite false 6666666666666668 (-1)).
  split; [vm_compute; reflexivity|]. split; [vm_compute; reflexivity|].
  discriminate.
Qed.

(** C8 (amended).  Reordering the galaxies inside the two subsets leaves
    unchanged what the reductions are fed: the concatenated array is a
    permutation of the original one, and so is the array that [np.nanmean]
    sums (NaN replaced by 0.0), with as many entries and as many valid
    (not NaN) entries; the exact sum of the finite values, as a rational
    number, is the same; and the nan-median of chi-square values is
    identical.  The float64 addition of the sum is commutative, so the sum
    over two galaxies does not depend on their order. *)
Theorem aggregates_under_reordering (a a' b b' : list float64) :
  Permutation a a' → Permutation b b' →
  Permutation (np.concatenate a b) (np.concatenate a' b') ∧
  Permutation (np.replace_nan (np.concatenate a b)).1
              (np.replace_nan (np.concatenate a' b')).1 ∧
  length (np.concatenate a b) = length (np.concatenate a' b') ∧
  length (List.filter (λ x, negb (isnan x)) (np.concatenate a b))
  = length (List.filter (λ x, negb (isnan x)) (np.concatenate a' b')) ∧
  (Qsum (map to_Q (np.concatenate a b)) == Qsum (map to_Q (np.concatenate a' b')))%Q ∧
  (Forall (λ x, signbit x = false) (np.concatenate a b) →
   np.nanmedian (np.concatenate a b) = np.nanmedian (np.concatenate a' b')) ∧
  (∀ x y, add x y = add y x) ∧
  (∀ x y, np.sum (np.concatenate [x] [y]) = np.sum (np.concatenate [y] [x])).
Proof.
  intros Ha Hb.
  assert (Permutation (np.concatenate a b) (np.concatenate a' b')) as Hab
    by (apply Permutation_app; assumption).
  split; [exact Hab|].
  split; [apply Permutation_map, Hab|].
  split; [apply Permutation_length, Hab|].
  split; [apply Permutation_length, filter_Permutation, Hab|].
  split; [apply Qsum_Permutation, Permutation_map, Hab|].
  split; [intros Hsign; apply nanmedian_Permutation; assumption|].
  split; [apply add_comm|apply sum_two].
Qed.

Lemma aggregates_under_reordering_witness :
  Permutation [e16; one; one] [one; one; e16] ∧
  (Qsum (map to_Q (np.concatenate [e16; one; one] []))
   == Qsum (map to_Q (np.concatenate [one; one; e16] [])))%Q ∧
  np.nanmedian (np.concatenate [e16; one; one] [])
  = np.nanmedian (np.concatenate [one; one; e16] []).
Proof.
  assert (Permutation [e16; one; one] [one; one; e16]) as Hp
    by apply (Permutation_cons_append [one; one] e16).
  split; [exact Hp|].
  destruct (aggregates_under_reordering [e16; one; one] [one; one; e16] [] [] Hp
              (Permutation_refl []))
    as (_ & _ & _ & _ & Hsum & Hmedian & _).
  split; [exact Hsum|].
  apply Hmedian. repeat constructor.
Defined.

End Ordering.

(** * The loop of fits_CDM_all *)

Module Orchestrator.
Import fits_CDM_all.

Section Runs.
Variable fit_outcome : string → string → ResultTable → Prop.

Lemma inner_loop_calls prior models st st' :
  inner_loop fit_outcome prior models st st' →
  st'.2 = st.2 ++ map (pair prior) models.
Proof.
  induction 1 as [st|model models d calls row res st' _ _ _ IH]; cbn [snd map] in *.
  - rewrite app_nil_r. reflexivity.
  - rewrite IH, <- app_assoc. reflexivity.
Qed.

Lemma outer_loop_calls priors st st' :
  outer_loop fit_outcome priors st st' →
  st'.2 = st.2 ++ concat (map (λ prior, map (pair prior) model_tab) priors).
Proof.
  induction 1 as [st|prior priors d calls st1 st' Hin _ IH]; cbn [snd map concat] in *.
  - rewrite app_nil_r. reflexivity.
  - rewrite IH, (inner_loop_calls _ _ _ _ Hin), <- app_assoc. reflexivity.
Qed.
End Runs.

(** When every call returns [fit model prior], the loop ends with
    [table_of fit]. *)
Section Function.
Variable fit : string → string → ResultTable.
Let graph : string → string → ResultTable → Prop := λ model prior res, res = fit model prior.

Lemma inner_loop_run prior models d row calls :
  d !! prior = Some row →
  inner_loop graph prior models (d, calls)
    (<[prior := foldl (λ r model, <[model := fit model prior]> r) row models]> d,
     calls ++ map (pair prior) models).
Proof.
  revert d row calls. induction models as [|model models IH]; intros d row calls Hrow.
  - cbn. rewrite app_nil_r, (insert_id d prior row Hrow). constructor.
  - econstructor; [reflexivity|exact Hrow|].
    specialize (IH (<[prior := <[model := fit model prior]> row]> d)
                   (<[model := fit model prior]> row) (calls ++ [(prior, model)])
                   (lookup_insert_eq _ _ _)).
    rewrite insert_insert_eq, <- app_assoc in IH. exact IH.
Qed.

Lemma outer_loop_run priors d calls :
  outer_loop graph priors (d, calls)
    (foldl (λ d prior,
              <[prior := foldl (λ r model, <[model := fit model prior]> r) ∅ model_tab]> d)
           d priors,
     calls ++ concat (map (λ prior, map (pair prior) model_tab) priors)).
Proof.
  revert d calls. induction priors as [|prior priors IH]; intros d calls.
  - cbn. rewrite app_nil_r. constructor.
  - econstructor.
    + apply (inner_loop_run prior model_tab (<[prior := ∅]> d) ∅ calls).
      apply lookup_insert_eq.
    + rewrite insert_insert_eq. cbn [foldl map concat]. rewrite app_assoc. apply IH.
Qed.

Lemma run_table_of :
  run graph (table_of fit) (concat (map (λ prior, map (pair prior) model_tab) prior_tab)).
Proof. exact (outer_loop_run prior_tab ∅ []). Qed.
End Function.

End Orchestrator.

(** * The derived statistics of a fit *)

Module FitterFacts.
Import Fitter.
Local Open Scope R_scope.

Lemma ln_nonneg (x : R) : 1 <= x → 0 <= ln x.
Proof.
  intros [Hlt|<-].
  - rewrite <- ln_1. left. apply ln_increasing; [apply Rlt_0_1|exact Hlt].
  - rewrite ln_1. apply Rle_refl.
Qed.

(** C7.  BIC = chi^2 + k·ln(N) does not decrease when the number of free
    parameters grows, for a fixed chi^2 and N ≥ 1 data points. *)
Theorem BIC_monotone_in_k (chi2 : R) (N k1 k2 : nat) :
  (1 ≤ N)%nat → (k1 ≤ k2)%nat → BIC chi2 k1 N <= BIC chi2 k2 N.
Proof.
  intros HN Hk. unfold BIC. apply Rplus_le_compat_l, Rmult_le_compat_r.
  - apply ln_nonneg. change 1 with (INR 1). apply le_INR, HN.
  - apply le_INR, Hk.
Qed.

Lemma BIC_monotone_in_k_witness :
  (1 ≤ 10)%nat ∧ (2 ≤ 3)%nat ∧ BIC 4 2 10 <= BIC 4 3 10.
Proof.
  split; [lia|]. split; [lia|]. apply (BIC_monotone_in_k 4 10 2 3); lia.
Defined.




End FitterFacts.

(** * The dictionary the define cell builds *)

Module DefineFacts.
Import define_cells.

Lemma define_loop_lookup (fit : string → ResultTable) (keys : list string)
    (d : gmap string ResultTable) (key : string) :
  define_loop fit keys d !! key
  = if decide (key ∈ keys) then Some (fit key) else d !! key.
Proof.
  revert d. induction keys as [|k keys IH]; intros d; cbn [define_loop].
  - rewrite decide_False by apply not_elem_of_nil. reflexivity.
  - rewrite IH. destruct (decide (key ∈ keys)) as [Hin|Hout].
    + rewrite decide_True by (right; exact Hin). reflexivity.
    + destruct (decide (key = k)) as [->|Hne].
      * rewrite decide_True by left. apply lookup_insert_eq.
      * rewrite decide_False by (intros [?|?]%elem_of_cons; contradiction).
        apply lookup_insert_ne. congruence.
Qed.

Lemma placeholders_lookup (keys : list string) (key : string) :
  placeholders keys !! key = if decide (key ∈ keys) then Some ∅ else None.
Proof.
  induction keys as [|k keys IH]; cbn [placeholders foldr].
  - rewrite decide_False by apply not_elem_of_nil. apply lookup_empty.
  - fold (placeholders keys). destruct (decide (key = k)) as [->|Hne].
    + rewrite decide_True by left. apply lookup_insert_eq.
    + rewrite lookup_insert_ne, IH by congruence.
      destruct (decide (key ∈ keys)) as [Hin|Hout].
      * rewrite decide_True by (right; exact Hin). reflexivity.
      * rewrite decide_False by (intros [?|?]%elem_of_cons; contradiction). reflexivity.
Qed.

Lemma define_cell_key (fit : string → ResultTable) (keys : list string) (key : string) :
  key ∈ keys → define_cell fit keys !! key = Some (fit key).
Proof.
  intros Hin. unfold define_cell. rewrite define_loop_lookup, decide_True by exact Hin.
  reflexivity.
Qed.

Lemma concat_subsets_present (D : gmap string ResultTable) key stat T e :
  D !! key = Some T → concat_subsets D key stat = Raise e →
  e = KeyError "Vbulge_none" ∨ e = KeyError "Vbulge" ∨ e = KeyError stat.
Proof.
  intros HT. unfold concat_subsets, getitem. rewrite HT. cbn.
  destruct (T !! "Vbulge_none") as [s0|]; cbn; [|intros [= <-]; auto].
  destruct (s0 !! stat) as [a|]; cbn; [|intros [= <-]; auto].
  destruct (T !! "Vbulge") as [s1|]; cbn; [|intros [= <-]; auto].
  destruct (s1 !! stat) as [b|]; cbn; [discriminate|intros [= <-]; auto].
Qed.

Lemma has_Chi_sq_defined (fit : string → ResultTable) (keys : list string) (key : string) :
  key ∈ keys →
  Shape.has_Chi_sq (define_cell fit keys) key
  ↔ ∃ a b, Aggregator.subsets (fit key) "Chi_sq" a b.
Proof.
  intros Hin. unfold Shape.has_Chi_sq, define_cell.
  setoid_rewrite define_loop_lookup. rewrite decide_True by exact Hin.
  split.
  - intros (T & a & b & [= <-] & H). eauto.
  - intros (a & b & H). eauto 10.
Qed.

Lemma concat_subsets_defined (fit fit' : string → ResultTable) (keys : list string) :
  (∀ key, fit' key !! "Vbulge_none" = fit key !! "Vbulge_none" ∧
          fit' key !! "Vbulge" = fit key !! "Vbulge") →
  ∀ key stat, concat_subsets (define_cell fit' keys) key stat
              = concat_subsets (define_cell fit keys) key stat.
Proof.
  intros Hsame key stat. unfold concat_subsets, getitem, define_cell.
  rewrite !define_loop_lookup, !placeholders_lookup.
  destruct (decide (key ∈ keys)); [|reflexivity].
  cbn [mbind py_bind]. destruct (Hsame key) as [-> ->]. reflexivity.
Qed.

End DefineFacts.

(** * More on the dBIC cell *)

Module CellOutcomes.
Import Float64Facts RoundingFacts Aggregator checks_DC14_NFW CellFacts BinFacts Examples.

Lemma concat_subsets_Raise (D : gmap string ResultTable) key stat e :
  concat_subsets D key stat = Raise e →
  e = KeyError key ∨ e = KeyError "Vbulge_none" ∨ e = KeyError "Vbulge" ∨ e = KeyError stat.
Proof.
  unfold concat_subsets, getitem.
  destruct (D !! key) as [T|]; cbn; [|intros [= <-]; auto].
  destruct (T !! "Vbulge_none") as [s0|]; cbn; [|intros [= <-]; auto].
  destruct (s0 !! stat) as [a|]; cbn; [|intros [= <-]; auto].
  destruct (T !! "Vbulge") as [s1|]; cbn; [|intros [= <-]; auto].
  destruct (s1 !! stat) as [b|]; cbn; [discriminate|intros [= <-]; auto].
Qed.

Lemma dBIC_cell_closed_form (D : gmap string ResultTable) :
  dBIC_cell D =
  match concat_subsets D "DC14" "BIC" with
  | Raise e => Raise e
  | Ok dc14 =>
      match concat_subsets D "NFW" "BIC" with
      | Raise e => Raise e
      | Ok nfw =>
          if length dc14 <? length nfw then Raise IndexError
          else if Nat.eqb (length nfw) 0 then Raise ZeroDivisionError
          else Ok ("dBIC = BIC_NFW - BIC_DC14", map (row_of nfw dc14) interv_tab)
      end
  end.
Proof.
  destruct (concat_subsets D "DC14" "BIC") as [dc14|e] eqn:HD.
  2:{ unfold dBIC_cell, model_keys. cbn [collect_loop]. rewrite HD. reflexivity. }
  destruct (concat_subsets D "NFW" "BIC") as [nfw|e] eqn:HN.
  2:{ unfold dBIC_cell, model_keys. cbn [collect_loop]. rewrite HD. cbn [mbind py_bind].
      rewrite HN. reflexivity. }
  destruct (Nat.ltb_spec (length dc14) (length nfw)) as [Hlt|Hle].
  { apply (dBIC_cell_short D nfw dc14 HD HN Hlt). }
  destruct (Nat.eqb_spec (length nfw) 0) as [H0|H0].
  { apply (dBIC_cell_empty D nfw dc14 HD HN). destruct nfw; [reflexivity|discriminate]. }
  apply (dBIC_cell_Ok D nfw dc14 HD HN Hle). intros ->. apply H0. reflexivity.
Qed.

(** The dBIC cell, run on the dictionary the define cell has built, ends
    in exactly one of four ways.  It raises KeyError when a fit table lacks
    a bulge subset or its ['BIC'] column (the DC14 table is read first; the
    model keys themselves are never missing); IndexError when the DC14
    array is shorter than the NFW array; ZeroDivisionError when the NFW
    array is empty; and otherwise it runs to its end, with the header and
    the five rows.  (What the cell has printed before an exception is not
    recorded.) *)
Theorem dBIC_cell_outcome (fit : string → ResultTable) (D : gmap string ResultTable) :
  D = define_cells.define_cell fit model_keys →
  (∀ e, concat_subsets D "DC14" "BIC" = Raise e →
        dBIC_cell D = Raise e ∧
        (e = KeyError "Vbulge_none" ∨ e = KeyError "Vbulge" ∨ e = KeyError "BIC")) ∧
  (∀ dc14 e, concat_subsets D "DC14" "BIC" = Ok dc14 →
             concat_subsets D "NFW" "BIC" = Raise e →
             dBIC_cell D = Raise e ∧
             (e = KeyError "Vbulge_none" ∨ e = KeyError "Vbulge" ∨ e = KeyError "BIC")) ∧
  (∀ dc14 nfw, concat_subsets D "DC14" "BIC" = Ok dc14 →
               concat_subsets D "NFW" "BIC" = Ok nfw →
     (length dc14 < length nfw → dBIC_cell D = Raise IndexError) ∧
     (nfw = [] → dBIC_cell D = Raise ZeroDivisionError) ∧
     (length nfw ≤ length dc14 → nfw ≠ [] →
      ∃ rows, dBIC_cell D = Ok ("dBIC = BIC_NFW - BIC_DC14", rows) ∧
              length rows = 5 ∧
              map (λ row : float64 * float64 * ratio, (row.1.1, row.1.2)) rows
              = interv_tab)).
Proof.
  intros HD0.
  assert (D !! "DC14" = Some (fit "DC14")) as HkD
    by (rewrite HD0; apply DefineFacts.define_cell_key, (bool_decide_unpack _);
        vm_compute; reflexivity).
  assert (D !! "NFW" = Some (fit "NFW")) as HkN
    by (rewrite HD0; apply DefineFacts.define_cell_key, (bool_decide_unpack _);
        vm_compute; reflexivity).
  clear HD0. pose proof (dBIC_cell_closed_form D) as Hcell.
  split; [|split].
  - intros e HD. rewrite HD in Hcell. split; [exact Hcell|].
    exact (DefineFacts.concat_subsets_present _ _ _ _ _ HkD HD).
  - intros dc14 e HD HN. rewrite HD, HN in Hcell. split; [exact Hcell|].
    exact (DefineFacts.concat_subsets_present _ _ _ _ _ HkN HN).
  - intros dc14 nfw HD HN. rewrite HD, HN in Hcell. split; [|split].
    + intros Hlt. apply Nat.ltb_lt in Hlt. rewrite Hlt in Hcell. exact Hcell.
    + intros ->. destruct (length dc14 <? length []) eqn:Hlt.
      * apply Nat.ltb_lt in Hlt. cbn in Hlt. lia.
      * exact Hcell.
    + intros Hle Hne.
      exists (map (row_of nfw dc14) interv_tab).
      split; [|split; [reflexivity|apply dBIC.rows_intervals]].
      apply Nat.ltb_ge in Hle. rewrite Hle in Hcell.
      destruct (Nat.eqb_spec (length nfw) 0) as [H0|H0]; [|exact Hcell].
      destruct nfw; [done|discriminate].
Qed.

Lemma dBIC_cell_outcome_witness :
  concat_subsets (define_cells.define_cell (MoreExamples.fit_of D_mismatch) model_keys)
                 "DC14" "BIC" = Ok [one; of_Z 5] ∧
  concat_subsets (define_cells.define_cell (MoreExamples.fit_of D_mismatch) model_keys)
                 "NFW" "BIC" = Ok [one] ∧
  ∃ rows, dBIC_cell (define_cells.define_cell (MoreExamples.fit_of D_mismatch) model_keys)
          = Ok ("dBIC = BIC_NFW - BIC_DC14", rows) ∧
          length rows = 5 ∧
          map (λ row : float64 * float64 * ratio, (row.1.1, row.1.2)) rows = interv_tab.
Proof.
  split; [reflexivity|]. split; [reflexivity|].
  refine (proj2 (proj2 (proj2 (proj2 (dBIC_cell_outcome (MoreExamples.fit_of D_mismatch)
                                        _ eq_refl))
                          [one; of_Z 5] [one] eq_refl eq_refl)) _ _).
  - cbn. lia.
  - discriminate.
Defined.

(** Whatever the BIC values, the five counts of a finished dBIC cell add up
    to the number of galaxies whose difference is finite, and no count
    exceeds the denominator: the printed fractions sum to at most 1, and
    what is missing from 1 is the share of galaxies with a NaN or infinite
    difference. *)
Theorem dBIC_counts_finite_differences (D : gmap string ResultTable)
    (nfw dc14 : list float64) (hdr : string) (rows : list (float64 * float64 * ratio)) :
  concat_subsets D "NFW" "BIC" = Ok nfw →
  concat_subsets D "DC14" "BIC" = Ok dc14 →
  dBIC_cell D = Ok (hdr, rows) →
  Forall (λ row : float64 * float64 * ratio,
            numer row.2 ≤ denom row.2 ∧ denom row.2 = length nfw) rows ∧
  total (map (λ row : float64 * float64 * ratio, numer row.2) rows)
  = length (List.filter isfinite (Delta_BIC nfw dc14)) ∧
  total (map (λ row : float64 * float64 * ratio, numer row.2) rows) ≤ length nfw ∧
  (Qsum (map (λ row : float64 * float64 * ratio, fraction row.2) rows)
   == Z.of_nat (length (List.filter isfinite (Delta_BIC nfw dc14)))
      # Pos.of_nat (length nfw))%Q.
Proof.
  intros HN HD Hcell.
  destruct (dBIC.dBIC_cell_rows D nfw dc14 hdr rows HN HD Hcell) as (Hle & Hne & _ & ->).
  assert (length (Delta_BIC nfw dc14) = length nfw) as Hlen
    by (unfold Delta_BIC; rewrite length_zip_with; lia).
  assert (total (map (λ row : float64 * float64 * ratio, numer row.2)
                     (map (row_of nfw dc14) interv_tab))
          = length (List.filter isfinite (Delta_BIC nfw dc14))) as Htotal
    by (rewrite dBIC.rows_numer; apply bin_counts_total).
  split; [|split; [exact Htotal|split]].
  - apply Forall_forall. intros row Hrow.
    apply list_elem_of_fmap in Hrow as (iv & -> & _). cbn [row_of snd numer denom].
    split; [|reflexivity]. unfold bin_count. rewrite <- Hlen. apply Statistics.filter_length_le.
  - rewrite Htotal, <- Hlen. apply Statistics.filter_length_le.
  - rewrite <- (map_map (λ row : float64 * float64 * ratio, row.2) fraction).
    rewrite (Qsum_common_denom _ (length nfw)).
    + rewrite map_map, Htotal. reflexivity.
    + destruct nfw; [done|]. cbn. lia.
    + apply Forall_map. apply dBIC.rows_denom.
Qed.

Lemma dBIC_counts_finite_differences_witness :
  dBIC_cell D_infinite
  = Ok ("dBIC = BIC_NFW - BIC_DC14", map (row_of [inf; one] [inf; one]) interv_tab) ∧
  total (map (λ row : float64 * float64 * ratio, numer row.2)
             (map (row_of [inf; one] [inf; one]) interv_tab))
  = length (List.filter isfinite (Delta_BIC [inf; one] [inf; one])).
Proof.
  assert (dBIC_cell D_infinite
          = Ok ("dBIC = BIC_NFW - BIC_DC14", map (row_of [inf; one] [inf; one]) interv_tab))
    as Hcell by (vm_compute; reflexivity).
  split; [exact Hcell|].
  exact (proj1 (proj2 (dBIC_counts_finite_differences D_infinite [inf; one] [inf; one] _ _
                         eq_refl eq_refl Hcell))).
Defined.

Lemma bin_count_pairs (iv : float64 * float64) (nfw dc14 : list float64) :
  bin_count iv (Delta_BIC nfw dc14)
  = length (List.filter (λ xy : float64 * float64, in_interval iv (sub xy.1 xy.2))
                        (zip nfw dc14)).
Proof.
  unfold bin_count, Delta_BIC. revert dc14.
  induction nfw as [|x nfw IH]; intros [|y dc14]; try reflexivity.
  cbn [zip_with List.filter fst snd].
  destruct (in_interval iv (sub x y)); cbn [length]; f_equal; apply IH.
Qed.

(** The dBIC cell does not depend on the order of the galaxies: two
    dictionaries whose (BIC_NFW, BIC_DC14) pairs are the same up to order
    give the same outcome, row for row. *)
Theorem dBIC_cell_reordering (D D' : gmap string ResultTable)
    (nfw dc14 nfw' dc14' : list float64) :
  concat_subsets D "NFW" "BIC" = Ok nfw →
  concat_subsets D "DC14" "BIC" = Ok dc14 →
  concat_subsets D' "NFW" "BIC" = Ok nfw' →
  concat_subsets D' "DC14" "BIC" = Ok dc14' →
  length nfw = length dc14 → length nfw' = length dc14' →
  Permutation (zip nfw dc14) (zip nfw' dc14') →
  dBIC_cell D = dBIC_cell D'.
Proof.
  intros HN HD HN' HD' Hlen Hlen' Hperm.
  assert (length nfw = length nfw') as Hsame.
  { pose proof (Permutation_length Hperm) as H.
    rewrite !length_zip_with in H. lia. }
  rewrite (dBIC_cell_closed_form D), (dBIC_cell_closed_form D'), HN, HD, HN', HD'.
  rewrite <- Hlen, <- Hlen', <- Hsame, Nat.ltb_irrefl.
  destruct (Nat.eqb (length nfw) 0); [reflexivity|].
  do 2 f_equal. apply map_ext. intros iv. unfold row_of.
  rewrite !bin_count_pairs, Hsame. do 2 f_equal.
  apply Permutation_length, Ordering.filter_Permutation, Hperm.
Qed.

Lemma dBIC_cell_reordering_witness :
  Permutation (zip [inf; one] [inf; one]) (zip [one; inf] [one; inf]) ∧
  dBIC_cell D_infinite = dBIC_cell MoreExamples.D_infinite_swapped.
Proof.
  assert (Permutation (zip [inf; one] [inf; one]) (zip [one; inf] [one; inf])) as Hp
    by apply perm_swap.
  split; [exact Hp|].
  exact (dBIC_cell_reordering D_infinite MoreExamples.D_infinite_swapped [inf; one] [inf; one] [one; inf] [one; inf]
           eq_refl eq_refl eq_refl eq_refl eq_refl eq_refl Hp).
Defined.

(** *** The interval bounds *)

Lemma compare_rank_r (a d h : float64) :
  isnan d = false → isnan h = false → rank d = rank h →
  SFcompare a d = SFcompare a h.
Proof.
  intros Nd Nh Hr. destruct (isnan a) eqn:Na.
  - destruct a; try discriminate. destruct d, h; reflexivity.
  - rewrite (compare_rank a d Na Nd), (compare_rank a h Na Nh), Hr. reflexivity.
Qed.

Lemma compare_rank_l (a d h : float64) :
  isnan d = false → isnan h = false → rank d = rank h →
  SFcompare d a = SFcompare h a.
Proof.
  intros Nd Nh Hr. destruct (isnan a) eqn:Na.
  - destruct a; try discriminate. destruct d, h; reflexivity.
  - rewrite (compare_rank d a Nd Na), (compare_rank h a Nh Na), Hr. reflexivity.
Qed.

Lemma eqb_rank (x y : float64) :
  eqb x y = true → isnan x = false ∧ isnan y = false ∧ rank x = rank y.
Proof.
  intros H.
  assert (isnan x = false ∧ isnan y = false) as [Nx Ny]
    by (destruct x, y; try discriminate; auto).
  split; [exact Nx|]. split; [exact Ny|].
  unfold eqb, SFeqb in H. rewrite (compare_rank x y Nx Ny) in H.
  apply Ordering.lex3_Eq. destruct (lex3 (rank x) (rank y)); [reflexivity|discriminate..].
Qed.

Lemma isfinite_rank (x y : float64) :
  rank x = rank y → isfinite x = isfinite y.
Proof.
  destruct x as [sx|[]| |[] mx ex], y as [sy|[]| |[] my ey];
    cbn; intros H; try reflexivity; discriminate.
Qed.

Lemma in_interval_at_bound (lo hi hi' d : float64) :
  isfinite hi = true → ltb lo hi = true → eqb d hi = true →
  in_interval (lo, hi) d = true ∧ in_interval (hi, hi') d = false.
Proof.
  intros Fh Hlo Heq. destruct (eqb_rank d hi Heq) as (Nd & Nh & Hr).
  unfold in_interval, np.masked_invalid, np.between. cbn [fst snd].
  rewrite (isfinite_rank d hi Hr), Fh.
  unfold ltb, leb, SFltb, SFleb.
  rewrite (compare_rank_r lo d hi Nd Nh Hr), (compare_rank_l hi d hi Nd Nh Hr),
    (compare_rank_r hi d hi Nd Nh Hr).
  unfold ltb, SFltb in Hlo.
  rewrite (compare_rank hi hi Nh Nh). unfold lex3. rewrite !Z.compare_refl.
  destruct (SFcompare lo hi) as [[]|]; try discriminate. split; reflexivity.
Qed.

(** A difference equal to one of the inner bounds −6, −2, 2, 6 is counted in
    the interval that bound closes, not in the one it opens: the intervals
    are open below and closed above.  (Equality is float64 [==], so −0.0 and
    0.0 are treated alike.) *)
Theorem interval_bound_goes_below (i : nat) (lo hi hi' d : float64) :
  interv_tab !! i = Some (lo, hi) → interv_tab !! S i = Some (hi, hi') →
  eqb d hi = true →
  in_interval (lo, hi) d = true ∧ in_interval (hi, hi') d = false.
Proof.
  intros Hi HSi Heq.
  destruct i as [|[|[|[|i]]]]; cbn in Hi, HSi; try discriminate;
    injection Hi as <- <-; injection HSi as <-;
    apply in_interval_at_bound; try reflexivity; exact Heq.
Qed.

Lemma interval_bound_goes_below_witness :
  eqb (of_Z 2) (of_Z 2) = true ∧
  in_interval (of_Z (-2), of_Z 2) (of_Z 2) = true ∧
  in_interval (of_Z 2, of_Z 6) (of_Z 2) = false.
Proof.
  split; [reflexivity|].
  apply (interval_bound_goes_below 2); reflexivity.
Defined.

End CellOutcomes.

(** * More on the chi-square cells *)

Module ChiSqCells.
Import Float64Facts RoundingFacts Aggregator checks_DC14_NFW CellFacts Examples MoreExamples Shape.

Lemma concat_subsets_has (D : gmap string ResultTable) (key : string) :
  (∃ l, concat_subsets D key "Chi_sq" = Ok l) ↔ has_Chi_sq D key.
Proof.
  split.
  - intros [l (T & s0 & s1 & a & b & HT & H0 & Ha & H1 & Hb & _)%concat_subsets_Ok].
    exists T, a, b. split; [exact HT|]. exists s0, s1. auto.
  - intros (T & a & b & HT & s0 & s1 & H0 & Ha & H1 & Hb).
    exists (a ++ b). apply concat_subsets_Ok. exists T, s0, s1, a, b. auto 10.
Qed.

Lemma KeyError_only (D : gmap string ResultTable) key stat e :
  concat_subsets D key stat = Raise e → ∃ k, e = KeyError k.
Proof.
  intros H. destruct (CellOutcomes.concat_subsets_Raise _ _ _ _ H) as [->|[->|[->| ->]]]; eauto.
Qed.

Lemma two_keys_outcome {B : Type} (g : string → list float64 → B)
    (D : gmap string ResultTable) (k1 k2 : string) :
  (∀ e, mapM (λ key, l ← concat_subsets D key "Chi_sq"; mret (g key l)) [k1; k2] = Raise e →
        ∃ k, e = KeyError k) ∧
  ((∃ out, mapM (λ key, l ← concat_subsets D key "Chi_sq"; mret (g key l)) [k1; k2] = Ok out)
   ↔ has_Chi_sq D k1 ∧ has_Chi_sq D k2).
Proof.
  cbn [mapM mbind mret py_bind py_ret].
  rewrite <- !concat_subsets_has.
  pose proof (KeyError_only D k1 "Chi_sq") as K1.
  pose proof (KeyError_only D k2 "Chi_sq") as K2.
  destruct (concat_subsets D k1 "Chi_sq") as [l1|e1]; cbn [mbind py_bind].
  - destruct (concat_subsets D k2 "Chi_sq") as [l2|e2]; cbn [mbind py_bind].
    + split; [discriminate|]. split; eauto.
    + split; [intros e [= <-]; eauto|].
      split; [intros [out [=]]|intros [_ [l [=]]]].
  - split; [intros e [= <-]; eauto|].
    split; [intros [out [=]]|intros [[l [=]] _]].
Qed.

(** The define cell followed by the median cell of checks_DC14_NFW: the
    second never misses a model key, so the only exceptions left are the
    KeyErrors of a fit table without a bulge subset or without its
    ['Chi_sq'] column, whatever the arrays hold (empty arrays included);
    and the cell runs to its end exactly when the tables returned by the
    DC14 fit and by the NFW fit have that column in both subsets. *)
Theorem redchi_cell_after_define (fit : string → ResultTable) :
  (∀ e, redchi_cell (define_cells.define_cell fit model_keys) = Raise e →
        e = KeyError "Vbulge_none" ∨ e = KeyError "Vbulge" ∨ e = KeyError "Chi_sq") ∧
  ((∃ out, redchi_cell (define_cells.define_cell fit model_keys) = Ok out)
   ↔ (∃ a b, subsets (fit "DC14") "Chi_sq" a b) ∧
     (∃ a b, subsets (fit "NFW") "Chi_sq" a b)).
Proof.
  set (D := define_cells.define_cell fit model_keys).
  assert ("DC14" ∈ model_keys) as HD
    by (apply (bool_decide_unpack _); vm_compute; reflexivity).
  assert ("NFW" ∈ model_keys) as HN
    by (apply (bool_decide_unpack _); vm_compute; reflexivity).
  split.
  - unfold redchi_cell, model_keys. cbn [mapM mbind mret py_bind py_ret].
    pose proof (λ e, DefineFacts.concat_subsets_present D "DC14" "Chi_sq" _ e
                       (DefineFacts.define_cell_key fit _ _ HD)) as K1.
    pose proof (λ e, DefineFacts.concat_subsets_present D "NFW" "Chi_sq" _ e
                       (DefineFacts.define_cell_key fit _ _ HN)) as K2.
    destruct (concat_subsets D "DC14" "Chi_sq") as [l1|e1]; cbn [mbind py_bind].
    + destruct (concat_subsets D "NFW" "Chi_sq") as [l2|e2]; cbn [mbind py_bind].
      * discriminate.
      * intros e [= <-]. apply K2. reflexivity.
    + intros e [= <-]. apply K1. reflexivity.
  - rewrite <- (DefineFacts.has_Chi_sq_defined fit _ "DC14" HD),
      <- (DefineFacts.has_Chi_sq_defined fit _ "NFW" HN).
    apply (two_keys_outcome (λ key l, (key, np.nanmedian l)) D "DC14" "NFW").
Qed.

(** *** When every fit failed *)

Lemma sum_zeros (a : list float64) :
  Forall (λ x, isnan x = true) a → np.sum (np.replace_nan a).1 = zero.
Proof.
  intros Ha. apply (SumFacts.sum_closed (λ x, x = zero)); [reflexivity|intros x y -> ->; reflexivity|].
  cbn [np.replace_nan fst]. apply Forall_map. eapply Forall_impl; [exact Ha|].
  intros x Hx. cbn beta. rewrite Hx. reflexivity.
Qed.

Lemma all_nan_statistics (a : list float64) :
  Forall (λ x, isnan x = true) a → np.nanmedian a = nan ∧ np.nanmean a = nan.
Proof.
  intros Ha.
  assert (List.filter (λ x, negb (isnan x)) a = []) as Hvalid.
  { induction Ha as [|x a Hx _ IH]; [reflexivity|]. cbn. rewrite Hx. exact IH. }
  split.
  - unfold np.nanmedian. rewrite Hvalid. reflexivity.
  - unfold np.nanmean.
    pose proof (sum_zeros a Ha) as Hsum.
    pose proof (Statistics.count_replace_nan a) as Hcnt.
    destruct (np.replace_nan a) as [arr mask]. cbn [fst snd] in *.
    rewrite Hsum, Hcnt, Hvalid. reflexivity.
Qed.

(** When the chi-square of every galaxy is NaN (or there is no galaxy at
    all), the cell of checks_Einasto_NFW does not raise: it prints NaN for
    the median and for the mean of each model. *)
Theorem all_failed_prints_nan (D : gmap string ResultTable)
    (TE TN : ResultTable) (aE bE aN bN : list float64) :
  D !! "Einasto" = Some TE → D !! "NFW" = Some TN →
  subsets TE "Chi_sq" aE bE → subsets TN "Chi_sq" aN bN →
  Forall (λ x, isnan x = true) (aE ++ bE) →
  Forall (λ x, isnan x = true) (aN ++ bN) →
  checks_Einasto_NFW.chisq_cell D = Ok [("Einasto", nan, nan); ("NFW", nan, nan)].
Proof.
  intros HE HN (e0 & e1 & He0 & Hea & He1 & Heb) (n0 & n1 & Hn0 & Hna & Hn1 & Hnb) FE FN.
  unfold checks_Einasto_NFW.chisq_cell, checks_Einasto_NFW.model_keys.
  cbn [mapM mbind mret py_bind py_ret].
  rewrite (proj2 (concat_subsets_Ok D "Einasto" "Chi_sq" (aE ++ bE)))
    by (exists TE, e0, e1, aE, bE; auto 10).
  rewrite (proj2 (concat_subsets_Ok D "NFW" "Chi_sq" (aN ++ bN)))
    by (exists TN, n0, n1, aN, bN; auto 10).
  cbn [mbind py_bind].
  destruct (all_nan_statistics _ FE) as [-> ->].
  destruct (all_nan_statistics _ FN) as [-> ->]. reflexivity.
Qed.

Lemma all_failed_prints_nan_witness :
  Forall (λ x, isnan x = true) ([nan; nan] ++ []) ∧
  checks_Einasto_NFW.chisq_cell D_all_failed
  = Ok [("Einasto", nan, nan); ("NFW", nan, nan)].
Proof.
  split; [repeat constructor|].
  apply (all_failed_prints_nan D_all_failed
           (table [] [] [nan; nan] []) (table [] [] [nan] [])
           [nan; nan] [] [nan] []);
    try reflexivity; try (eexists _, _; repeat split; reflexivity);
    repeat constructor.
Defined.

(** *** The sign of the printed statistics *)

Lemma signbit_signed (x : float64) : signbit x = false → x = nan ∨ signed false x.
Proof. destruct x as [[]|[]| |[] m e]; try discriminate; intros _; cbn; auto. Qed.

Lemma of_nat_signbit (n : nat) : signbit (of_Z (Z.of_nat n)) = false.
Proof.
  unfold of_Z. destruct (Z.of_nat n) as [|p|p] eqn:Hn; [reflexivity| |lia].
  pose proof (binary_round_signed false p 0) as H.
  change (signbit (binary_round prec emax false p 0) = false).
  destruct (binary_round _ _ _ _ _); cbn in *; congruence.
Qed.

Lemma SFdiv_core_binary_nonneg (m1 m2 : positive) (e1 e2 : Z) :
  (0 ≤ (SFdiv_core_binary prec emax (Z.pos m1) e1 (Z.pos m2) e2).1.1)%Z.
Proof.
  unfold SFdiv_core_binary.
  set (s := (e1 - e2 - _)%Z).
  set (m' := match s with Z.pos _ => Z.shiftl (Z.pos m1) s | 0%Z => Z.pos m1 | Z.neg _ => 0%Z end).
  assert (0 ≤ m')%Z as Hm'.
  { subst m'. destruct s; [lia| |lia]. apply Z.shiftl_nonneg. lia. }
  pose proof (Z_div_mod m' (Z.pos m2) ltac:(lia)) as Hdiv.
  destruct (Z.div_eucl m' (Z.pos m2)) as [q r]. cbn [fst]. nia.
Qed.

Lemma div_signbit (x y : float64) :
  signbit x = false → signbit y = false → signbit (div x y) = false.
Proof.
  destruct x as [[]|[]| |[] mx ex], y as [[]|[]| |[] my ey];
    try discriminate; intros _ _; try reflexivity.
  unfold div, SFdiv.
  pose proof (SFdiv_core_binary_nonneg mx my ex ey) as Hq.
  destruct (SFdiv_core_binary prec emax (Z.pos mx) ex (Z.pos my) ey) as [[mz ez] lz].
  cbn [fst] in Hq. cbn [xorb].
  pose proof (binary_round_aux_signed false mz ez lz Hq) as H.
  destruct (binary_round_aux _ _ _ _ _ _); cbn in *; congruence.
Qed.

Lemma sum_signbit (a : list float64) :
  Forall (λ x, signbit x = false) a → signbit (np.sum a) = false.
Proof.
  apply (SumFacts.sum_closed (λ x, signbit x = false)); [reflexivity|apply add_signbit].
Qed.

Lemma mean_signbit (a : list float64) :
  Forall (λ x, signbit x = false) a → signbit (np.mean a) = false.
Proof.
  intros Ha. unfold np.mean.
  apply div_signbit; [apply sum_signbit, Ha|apply of_nat_signbit].
Qed.

Lemma nanmean_signbit (a : list float64) :
  Forall (λ x, signbit x = false) a → signbit (np.nanmean a) = false.
Proof.
  intros Ha. unfold np.nanmean. cbn [np.replace_nan].
  apply div_signbit; [|apply of_nat_signbit].
  apply sum_signbit.
  apply Forall_map. eapply Forall_impl; [exact Ha|].
  intros x Hx. cbn beta. destruct (isnan x); [reflexivity|exact Hx].
Qed.

Lemma sorted_entry_signbit (a : list float64) (k : nat) :
  Forall (λ x, signbit x = false) a →
  signbit (default nan (np.sort a !! k)) = false.
Proof.
  intros Ha. destruct (np.sort a !! k) as [x|] eqn:Hk; [|reflexivity].
  cbn. rewrite <- (Ordering.sort_Permutation a) in Ha.
  rewrite Forall_forall in Ha. apply Ha. eapply list_elem_of_lookup_2, Hk.
Qed.

Lemma nanmedian_signbit (a : list float64) :
  Forall (λ x, signbit x = false) a → signbit (np.nanmedian a) = false.
Proof.
  intros Ha. unfold np.nanmedian.
  assert (Forall (λ x, signbit x = false) (List.filter (λ x, negb (isnan x)) a)) as Hf.
  { rewrite Forall_forall in Ha. apply Forall_forall. intros x Hx.
    apply list_elem_of_In, filter_In in Hx as [Hin _]. apply Ha, list_elem_of_In, Hin. }
  destruct (Nat.eqb _ 0); [reflexivity|].
  unfold np.median. destruct (Nat.even _); apply mean_signbit;
    repeat constructor; apply sorted_entry_signbit, Hf.
Qed.

(** On chi-square columns (every entry NaN or with the sign bit clear) the
    chi-square cell never prints a negative number, nor −0.0 or −inf: each
    printed median and mean is NaN or a number with the sign bit clear. *)
Theorem chisq_cell_not_negative (D : gmap string ResultTable) (lE lN : list float64) :
  concat_subsets D "Einasto" "Chi_sq" = Ok lE →
  concat_subsets D "NFW" "Chi_sq" = Ok lN →
  Forall (λ x, signbit x = false) lE →
  Forall (λ x, signbit x = false) lN →
  ∃ out, checks_Einasto_NFW.chisq_cell D = Ok out ∧
         map (λ r : string * float64 * float64, r.1.1) out = checks_Einasto_NFW.model_keys ∧
         Forall (λ r : string * float64 * float64,
                   (r.1.2 = nan ∨ signed false r.1.2) ∧ (r.2 = nan ∨ signed false r.2)) out.
Proof.
  intros HE HN SE SN. unfold checks_Einasto_NFW.chisq_cell, checks_Einasto_NFW.model_keys.
  cbn [mapM mbind mret py_bind py_ret]. rewrite HE, HN. cbn [mbind py_bind].
  eexists. split; [reflexivity|]. split; [reflexivity|].
  constructor; [split|constructor; [split|constructor]];
    cbn [fst snd]; apply signbit_signed;
    (apply nanmedian_signbit || apply nanmean_signbit); assumption.
Qed.

Lemma chisq_cell_not_negative_witness :
  Forall (λ x, signbit x = false) [of_Z 4; nan; of_Z 1] ∧
  ∃ out, checks_Einasto_NFW.chisq_cell D_chi_sq = Ok out ∧
         map (λ r : string * float64 * float64, r.1.1) out = checks_Einasto_NFW.model_keys ∧
         Forall (λ r : string * float64 * float64,
                   (r.1.2 = nan ∨ signed false r.1.2) ∧ (r.2 = nan ∨ signed false r.2)) out.
Proof.
  assert (Forall (λ x, signbit x = false) [of_Z 4; nan; of_Z 1]) as SE
    by (repeat constructor).
  split; [exact SE|].
  apply (chisq_cell_not_negative D_chi_sq [of_Z 4; nan; of_Z 1] [of_Z 9]);
    [reflexivity|reflexivity|exact SE|repeat constructor].
Defined.

End ChiSqCells.

(** * What the loop of fits_CDM_all builds *)

Module LoopShape.
Import fits_CDM_all Shape.

Section Runs.
Variable fit_outcome : string → string → ResultTable → Prop.

Lemma inner_loop_row prior models st st' row :
  inner_loop fit_outcome prior models st st' →
  st.1 !! prior = Some row →
  ∃ row', st'.1 = <[prior := row']> st.1 ∧
          dom row' = dom row ∪ list_to_set models ∧
          ∀ model res, row' !! model = Some res →
                       row !! model = Some res ∨ fit_outcome model prior res.
Proof.
  intros H. revert row.
  induction H as [st|model models d calls row0 res st' Hfit Hrow0 _ IH]; intros row Hrow.
  - exists row. split; [symmetry; apply insert_id, Hrow|].
    split; [cbn [list_to_set]; rewrite (right_id_L ∅ (∪)); reflexivity|auto].
  - cbn [fst] in *. assert (row0 = row) as -> by congruence.
    destruct (IH (<[model := res]> row) (lookup_insert_eq _ _ _)) as (row' & Hst & Hdom & Hres).
    exists row'. split; [rewrite Hst; apply insert_insert_eq|].
    split.
    { rewrite Hdom, dom_insert_L. cbn [list_to_set].
      rewrite (comm_L (∪) {[model]} (dom row)), (assoc_L (∪)). reflexivity. }
    intros m r Hm. destruct (Hres m r Hm) as [Hin|Hf]; [|auto].
    apply lookup_insert_Some in Hin as [[<- <-]|[_ Hin]]; auto.
Qed.

Lemma outer_loop_rows priors st st' :
  outer_loop fit_outcome priors st st' →
  ∀ prior, (prior ∈ priors → filled fit_outcome st'.1 prior) ∧
           (prior ∉ priors → st'.1 !! prior = st.1 !! prior).
Proof.
  induction 1 as [st|prior0 priors d calls st1 st' Hin _ IH]; intros prior.
  - split; [intros H; inversion H|reflexivity].
  - cbn [fst] in *.
    destruct (inner_loop_row _ _ _ _ ∅ Hin (lookup_insert_eq _ _ _))
      as (row' & Hst1 & Hdom & Hres).
    cbn [fst] in Hst1. rewrite insert_insert_eq in Hst1.
    assert (filled fit_outcome st1.1 prior0) as Hfilled.
    { exists row'. rewrite Hst1. split; [apply lookup_insert_eq|].
      split; [rewrite Hdom, dom_empty_L; apply (left_id_L ∅ (∪))|].
      intros m r Hm. destruct (Hres m r Hm) as [Hin'|Hf]; [|exact Hf].
      rewrite lookup_empty in Hin'. discriminate. }
    destruct (IH prior) as [IHin IHout].
    split.
    + intros Hp. destruct (decide (prior ∈ priors)) as [Hr|Hr]; [auto|].
      apply elem_of_cons in Hp as [->|Hp]; [|contradiction].
      destruct Hfilled as (row & Hrow & Hrest). exists row.
      split; [rewrite (IHout Hr); exact Hrow|exact Hrest].
    + intros Hp. apply not_elem_of_cons in Hp as [Hne Hp].
      rewrite (IHout Hp), Hst1. apply lookup_insert_ne. congruence.
Qed.

Lemma inner_loop_progress prior models d calls row :
  returns fit_outcome → d !! prior = Some row →
  ∃ st', inner_loop fit_outcome prior models (d, calls) st'.
Proof.
  intros Hret. revert d calls row.
  induction models as [|model models IH]; intros d calls row Hrow.
  - eexists. constructor.
  - destruct (Hret model prior) as [res Hres].
    destruct (IH (<[prior := <[model := res]> row]> d) (calls ++ [(prior, model)])
                 (<[model := res]> row) (lookup_insert_eq _ _ _)) as [st' Hst'].
    exists st'. econstructor; eassumption.
Qed.

Lemma outer_loop_progress priors st :
  returns fit_outcome → ∃ st', outer_loop fit_outcome priors st st'.
Proof.
  intros Hret. revert st.
  induction priors as [|prior priors IH]; intros [d calls].
  - eexists. constructor.
  - destruct (inner_loop_progress prior model_tab (<[prior := ∅]> d) calls ∅ Hret
                (lookup_insert_eq _ _ _)) as [st1 H1].
    destruct (IH st1) as [st' H']. exists st'. econstructor; eassumption.
Qed.
End Runs.

(** When the loop of fits_CDM_all has run, [CDM_params_dict] has exactly the
    five keys of [prior_tab]; under each of them a dict with exactly the
    four keys of [model_tab]; and the entry for a prior and a model is a
    table that the fit of that model under that prior returned. *)
Theorem run_fills_every_pair (fit_outcome : string → string → ResultTable → Prop)
    (CDM_params_dict : params_dict) (calls : list (string * string)) :
  run fit_outcome CDM_params_dict calls →
  dom CDM_params_dict = list_to_set (C := gset string) prior_tab ∧
  (∀ prior, prior ∈ prior_tab →
     ∃ row, CDM_params_dict !! prior = Some row ∧
            dom row = list_to_set (C := gset string) model_tab ∧
            ∀ model res, row !! model = Some res → fit_outcome model prior res) ∧
  (∀ prior model, prior ∈ prior_tab → model ∈ model_tab →
     ∃ row res, CDM_params_dict !! prior = Some row ∧ row !! model = Some res ∧
                fit_outcome model prior res).
Proof.
  intros Hrun. pose proof (outer_loop_rows _ _ _ _ Hrun) as Hrows. cbn [fst] in Hrows.
  assert (∀ prior, prior ∈ prior_tab → filled fit_outcome CDM_params_dict prior) as Hfilled
    by (intros prior; apply Hrows).
  split; [|split].
  - apply set_eq. intros prior. rewrite elem_of_dom, elem_of_list_to_set. split.
    + intros [row Hrow]. destruct (decide (prior ∈ prior_tab)) as [Hin|Hout]; [exact Hin|].
      rewrite (proj2 (Hrows prior) Hout), lookup_empty in Hrow. discriminate.
    + intros Hin. destruct (Hfilled prior Hin) as (row & Hrow & _). eauto.
  - exact Hfilled.
  - intros prior model Hp Hm. destruct (Hfilled prior Hp) as (row & Hrow & Hdom & Hres).
    assert (model ∈ dom row) as Hin by (rewrite Hdom; apply elem_of_list_to_set, Hm).
    apply elem_of_dom in Hin as [res Hmodel]. eauto 10.
Qed.

Lemma run_fills_every_pair_witness :
  run (λ _ _ res, res = ∅) (table_of (λ _ _, ∅))
      (concat (map (λ prior, map (pair prior) model_tab) prior_tab)) ∧
  ∃ row res, table_of (λ _ _, ∅) !! "uni_priors" = Some row ∧
             row !! "NFW" = Some res ∧ res = (∅ : ResultTable).
Proof.
  pose proof (Orchestrator.run_table_of (λ _ _, ∅)) as Hrun.
  split; [exact Hrun|].
  apply (proj2 (proj2 (run_fills_every_pair _ _ _ Hrun)) "uni_priors" "NFW");
    apply (bool_decide_unpack _); vm_compute; reflexivity.
Defined.

(** When every call of [fit()] returns, the loop of fits_CDM_all runs to its
    end: the nested assignment [CDM_params_dict[prior][model] = ...] always
    finds the row of [prior], which the loop has created just before. *)
Theorem run_completes (fit_outcome : string → string → ResultTable → Prop) :
  returns fit_outcome →
  ∃ CDM_params_dict calls, run fit_outcome CDM_params_dict calls.
Proof.
  intros Hret. destruct (outer_loop_progress fit_outcome prior_tab (∅, []) Hret) as [[d calls] H].
  exists d, calls. exact H.
Qed.

Lemma run_completes_witness :
  returns (λ _ _ res, res = ∅) ∧
  ∃ CDM_params_dict calls, run (λ _ _ res, res = ∅) CDM_params_dict calls.
Proof.
  assert (returns (λ _ _ res, res = (∅ : ResultTable))) as Hret
    by (intros model prior; eexists; reflexivity).
  split; [exact Hret|apply run_completes, Hret].
Defined.

Lemma elem_of_pairs (priors models : list string) (prior model : string) :
  (prior, model) ∈ concat (map (λ p, map (pair p) models) priors)
  ↔ prior ∈ priors ∧ model ∈ models.
Proof.
  induction priors as [|p priors IH]; cbn [map concat].
  - split; [intros H; inversion H|intros [H _]; inversion H].
  - rewrite elem_of_app, IH, list_elem_of_fmap, elem_of_cons. split.
    + intros [(m & [= -> ->] & Hm)|[Hp Hm]]; auto.
    + intros [[->|Hp] Hm]; [left; eauto|auto].
Qed.

(** Whatever the fits return, a run of the loop of fits_CDM_all calls
    [fit()] exactly once for each of the twenty (prior, model) pairs: the
    priors in the order of [prior_tab] and, under each prior, the models in
    the order of [model_tab]. *)
Theorem run_calls_each_pair_once (fit_outcome : string → string → ResultTable → Prop)
    (CDM_params_dict : params_dict) (calls : list (string * string)) :
  run fit_outcome CDM_params_dict calls →
  calls = concat (map (λ prior, map (pair prior) model_tab) prior_tab) ∧
  NoDup calls ∧ length calls = 20 ∧
  ∀ prior model, (prior, model) ∈ calls ↔ prior ∈ prior_tab ∧ model ∈ model_tab.
Proof.
  intros Hrun.
  pose proof (Orchestrator.outer_loop_calls _ _ _ _ Hrun) as Hcalls.
  cbn [snd app] in Hcalls. subst calls.
  split; [reflexivity|]. split; [|split; [reflexivity|]].
  - apply (bool_decide_unpack _). vm_compute. reflexivity.
  - intros prior model. apply elem_of_pairs.
Qed.

Lemma run_calls_each_pair_once_witness :
  run (λ _ _ res, res = ∅) (table_of (λ _ _, ∅))
      (concat (map (λ prior, map (pair prior) model_tab) prior_tab)) ∧
  NoDup (concat (map (λ prior, map (pair prior) model_tab) prior_tab)) ∧
  length (concat (map (λ prior, map (pair prior) model_tab) prior_tab)) = 20.
Proof.
  pose proof (Orchestrator.run_table_of (λ _ _, ∅)) as Hrun.
  split; [exact Hrun|].
  destruct (run_calls_each_pair_once _ _ _ Hrun) as (_ & Hnodup & Hlen & _).
  split; [exact Hnodup|exact Hlen].
Defined.

End LoopShape.

(** * The define cells of the check notebooks *)

Module DefineCells.
Import define_cells DefineFacts Aggregator checks_DC14_NFW.

(** The define cell of a check notebook replaces every placeholder of the
    dict literal and adds no key: afterwards [CDM_params_dict] has exactly
    the literal's keys, each bound to the table its own fit returned, so
    [CDM_params_dict[key]] succeeds in a later cell exactly for these keys. *)
Theorem define_cell_lookup (fit : string → ResultTable) (keys : list string) :
  dom (define_cell fit keys) = list_to_set (C := gset string) keys ∧
  (∀ key, key ∈ keys → define_cell fit keys !! key = Some (fit key)) ∧
  (∀ key, key ∈ keys → getitem (define_cell fit keys) key = Ok (fit key)) ∧
  (∀ key, key ∉ keys → getitem (define_cell fit keys) key = Raise (KeyError key)).
Proof.
  assert (∀ key, define_cell fit keys !! key
                 = if decide (key ∈ keys) then Some (fit key) else None) as Hlookup.
  { intros key. unfold define_cell. rewrite define_loop_lookup, placeholders_lookup.
    destruct (decide (key ∈ keys)); reflexivity. }
  split; [|split; [|split]].
  - apply set_eq. intros key. rewrite elem_of_dom, elem_of_list_to_set, Hlookup.
    destruct (decide (key ∈ keys)); split; intros H; eauto; try contradiction.
    destruct H as [? [=]].
  - intros key Hin. rewrite Hlookup, decide_True by exact Hin. reflexivity.
  - intros key Hin. unfold getitem. rewrite Hlookup, decide_True by exact Hin. reflexivity.
  - intros key Hout. unfold getitem. rewrite Hlookup, decide_False by exact Hout. reflexivity.
Qed.

Lemma define_cell_lookup_witness :
  "Einasto" ∈ checks_CDM_all_keys ∧
  define_cell (λ key, Examples.table [] [] [Examples.one] []) checks_CDM_all_keys !! "Einasto"
  = Some (Examples.table [] [] [Examples.one] []).
Proof.
  assert ("Einasto" ∈ checks_CDM_all_keys) as Hin
    by (apply (bool_decide_unpack _); vm_compute; reflexivity).
  split; [exact Hin|].
  exact (proj1 (proj2 (define_cell_lookup _ checks_CDM_all_keys)) "Einasto" Hin).
Defined.

(** The define cell and the chi-square cell of checks_Einasto_NFW, one after
    the other: the second never misses a model key, so the only exceptions
    left are the KeyErrors of a fit table without a bulge subset or without
    its ['Chi_sq'] column, and the cell prints exactly when the two tables
    the fits returned have that column in both subsets. *)
Theorem chisq_cell_after_define (fit : string → ResultTable) :
  (∀ e, checks_Einasto_NFW.chisq_cell (define_cell fit checks_Einasto_NFW.model_keys)
        = Raise e →
        e = KeyError "Vbulge_none" ∨ e = KeyError "Vbulge" ∨ e = KeyError "Chi_sq") ∧
  ((∃ out, checks_Einasto_NFW.chisq_cell (define_cell fit checks_Einasto_NFW.model_keys)
           = Ok out)
   ↔ (∃ a b, Aggregator.subsets (fit "Einasto") "Chi_sq" a b) ∧
     (∃ a b, Aggregator.subsets (fit "NFW") "Chi_sq" a b)).
Proof.
  set (D := define_cell fit checks_Einasto_NFW.model_keys).
  assert (∀ key, key ∈ checks_Einasto_NFW.model_keys → D !! key = Some (fit key)) as Hkey.
  { intros key Hin. unfold D, define_cell.
    rewrite define_loop_lookup, decide_True by exact Hin. reflexivity. }
  assert ("Einasto" ∈ checks_Einasto_NFW.model_keys) as HE
    by (apply (bool_decide_unpack _); vm_compute; reflexivity).
  assert ("NFW" ∈ checks_Einasto_NFW.model_keys) as HN
    by (apply (bool_decide_unpack _); vm_compute; reflexivity).
  split.
  - unfold checks_Einasto_NFW.chisq_cell, checks_Einasto_NFW.model_keys.
    cbn [mapM mbind mret py_bind py_ret].
    pose proof (λ e, concat_subsets_present D "Einasto" "Chi_sq" _ e (Hkey _ HE)) as K1.
    pose proof (λ e, concat_subsets_present D "NFW" "Chi_sq" _ e (Hkey _ HN)) as K2.
    destruct (concat_subsets D "Einasto" "Chi_sq") as [l1|e1]; cbn [mbind py_bind].
    + destruct (concat_subsets D "NFW" "Chi_sq") as [l2|e2]; cbn [mbind py_bind].
      * discriminate.
      * intros e [= <-]. apply K2. reflexivity.
    + intros e [= <-]. apply K1. reflexivity.
  - rewrite <- (has_Chi_sq_defined fit _ "Einasto" HE), <- (has_Chi_sq_defined fit _ "NFW" HN).
    apply (ChiSqCells.two_keys_outcome (λ key l, (key, np.nanmedian l, np.nanmean l))
             D "Einasto" "NFW").
Qed.

(** The define cell followed by a statistics cell: each median, mean and
    dBIC fraction is computed over the concatenation of the ['Vbulge_none']
    and ['Vbulge'] arrays of the tables the fits returned, never over one
    subset alone; the denominator of the dBIC fractions is the number of
    galaxies of both subsets of the NFW table; and nothing else of a table
    is read: two fits that agree on these two subsets give the same
    outcome. *)
Theorem cells_aggregate_both_subsets (fit : string → ResultTable) :
  (∀ out, checks_Einasto_NFW.chisq_cell (define_cell fit checks_Einasto_NFW.model_keys)
          = Ok out →
     ∃ aE bE aN bN,
       subsets (fit "Einasto") "Chi_sq" aE bE ∧ subsets (fit "NFW") "Chi_sq" aN bN ∧
       out = [("Einasto", np.nanmedian (aE ++ bE), np.nanmean (aE ++ bE));
              ("NFW", np.nanmedian (aN ++ bN), np.nanmean (aN ++ bN))]) ∧
  (∀ out, redchi_cell (define_cell fit model_keys) = Ok out →
     ∃ aD bD aN bN,
       subsets (fit "DC14") "Chi_sq" aD bD ∧ subsets (fit "NFW") "Chi_sq" aN bN ∧
       out = [("DC14", np.nanmedian (aD ++ bD)); ("NFW", np.nanmedian (aN ++ bN))]) ∧
  (∀ hdr rows, dBIC_cell (define_cell fit model_keys) = Ok (hdr, rows) →
     ∃ aD bD aN bN,
       subsets (fit "DC14") "BIC" aD bD ∧ subsets (fit "NFW") "BIC" aN bN ∧
       rows = map (row_of (aN ++ bN) (aD ++ bD)) interv_tab ∧
       Forall (λ row : float64 * float64 * ratio, denom row.2 = length aN + length bN)
              rows) ∧
  (∀ fit' : string → ResultTable,
     (∀ key, fit' key !! "Vbulge_none" = fit key !! "Vbulge_none" ∧
             fit' key !! "Vbulge" = fit key !! "Vbulge") →
     checks_Einasto_NFW.chisq_cell (define_cell fit' checks_Einasto_NFW.model_keys)
     = checks_Einasto_NFW.chisq_cell (define_cell fit checks_Einasto_NFW.model_keys) ∧
     redchi_cell (define_cell fit' model_keys) = redchi_cell (define_cell fit model_keys) ∧
     dBIC_cell (define_cell fit' model_keys) = dBIC_cell (define_cell fit model_keys)).
Proof.
  assert (∀ keys key T, key ∈ keys → define_cell fit keys !! key = Some T → T = fit key)
    as Hkey.
  { intros keys key T Hin HT. rewrite (define_cell_key fit keys key Hin) in HT.
    congruence. }
  assert ("Einasto" ∈ checks_Einasto_NFW.model_keys ∧ "NFW" ∈ checks_Einasto_NFW.model_keys)
    as [HkE HkN] by (split; apply (bool_decide_unpack _); vm_compute; reflexivity).
  assert ("DC14" ∈ model_keys ∧ "NFW" ∈ model_keys)
    as [HkD HkN'] by (split; apply (bool_decide_unpack _); vm_compute; reflexivity).
  split; [|split; [|split]].
  - intros out Hout.
    destruct (proj1 (Subsets.cells_read_subsets _) out Hout)
      as (TE & TN & aE & bE & aN & bN & HE & HN & SE & SN & ->).
    apply Hkey in HE; [|exact HkE]. apply Hkey in HN; [|exact HkN].
    subst TE TN. eauto 10.
  - intros out Hout.
    destruct (proj1 (proj2 (Subsets.cells_read_subsets _)) out Hout)
      as (TD & TN & aD & bD & aN & bN & HD & HN & SD & SN & ->).
    apply Hkey in HD; [|exact HkD]. apply Hkey in HN; [|exact HkN'].
    subst TD TN. eauto 10.
  - intros hdr rows Hcell.
    destruct (proj1 (proj2 (proj2 (Subsets.cells_read_subsets _))) hdr rows Hcell)
      as (TD & TN & aD & bD & aN & bN & HD & HN & SD & SN & Hrows & Hden).
    apply Hkey in HD; [|exact HkD]. apply Hkey in HN; [|exact HkN'].
    subst TD TN. eauto 10.
  - intros fit' Hsame. split; [|split].
    + apply Subsets.cells_ext, concat_subsets_defined, Hsame.
    + apply (Subsets.cells_ext (define_cell fit model_keys)),
        concat_subsets_defined, Hsame.
    + apply (Subsets.cells_ext (define_cell fit model_keys)),
        concat_subsets_defined, Hsame.
Qed.

Lemma cells_aggregate_both_subsets_witness :
  dBIC_cell (define_cell (MoreExamples.fit_of Examples.D_finite) model_keys)
  = Ok ("dBIC = BIC_NFW - BIC_DC14",
        map (row_of [of_Z 10; of_Z 3; of_Z 1] [of_Z 1; of_Z 3; of_Z 9]) interv_tab) ∧
  ∃ aD bD aN bN,
    subsets (MoreExamples.fit_of Examples.D_finite "DC14") "BIC" aD bD ∧
    subsets (MoreExamples.fit_of Examples.D_finite "NFW") "BIC" aN bN ∧
    map (row_of [of_Z 10; of_Z 3; of_Z 1] [of_Z 1; of_Z 3; of_Z 9]) interv_tab
    = map (row_of (aN ++ bN) (aD ++ bD)) interv_tab ∧
    Forall (λ row : float64 * float64 * ratio, denom row.2 = length aN + length bN)
           (map (row_of [of_Z 10; of_Z 3; of_Z 1] [of_Z 1; of_Z 3; of_Z 9]) interv_tab).
Proof.
  assert (dBIC_cell (define_cell (MoreExamples.fit_of Examples.D_finite) model_keys)
          = Ok ("dBIC = BIC_NFW - BIC_DC14",
                map (row_of [of_Z 10; of_Z 3; of_Z 1] [of_Z 1; of_Z 3; of_Z 9]) interv_tab))
    as Hcell by (vm_compute; reflexivity).
  split; [exact Hcell|].
  exact (proj1 (proj2 (proj2 (cells_aggregate_both_subsets
                                (MoreExamples.fit_of Examples.D_finite)))) _ _ Hcell).
Defined.

End DefineCells.
